(** * The security service of k3ss-ai-coder

    A shallow embedding of [src/task-5-security/security_service.py]: the
    [SecurityService] class (session store, audit log, threat scorer) and
    the Flask handlers built on it, followed by the properties that the
    specification states about them.

    Conventions of the embedding.
    - A Python [str] is a Rocq [string]; a character is a code point below
      256 (the Latin-1 range), which is what [ascii] can hold.
    - A [datetime] is an integer number of microseconds; [isoformat] and
      [fromisoformat] are mutually inverse on the values the service
      produces, so the ISO text stored in the dictionaries is carried as
      that integer.
    - [datetime.now()] and [secrets.token_hex] read from oracles that come
      with the ambient of a call; the world counts how many readings were
      consumed, so that successive calls see successive readings.
    - [self.sessions] is a [gmap] from session id to session record,
      [self.audit_log] a list in append order. *)

From Stdlib Require Import Ascii String ZArith Lia.
From stdpp Require Import gmap strings list pretty.

Set Warnings "-register-all".

Open Scope Z_scope.

(** ** Python built-ins the service relies on *)

Module Py.

(** JSON-shaped Python values: what [request.get_json()] yields and what
    the service puts into [details] dictionaries.  A dictionary keeps its
    insertion order, so it is an association list.  A float is carried as
    the text [repr] prints for it; float formatting itself is not
    modelled. *)
Inductive PyVal : Type :=
| PyNone
| PyBool (b : bool)
| PyInt (z : Z)
| PyFloat (printed : string)
| PyStr (s : string)
| PyList (items : list PyVal)
| PyDict (items : list (string * PyVal)).

Definition dquote : ascii := Eval cbv in ascii_of_N 34.
Definition squote : ascii := "'"%char.
Definition backslash : ascii := "\"%char.

(** [needle in hay] on strings. *)
Fixpoint py_in (needle hay : string) : bool :=
  String.prefix needle hay
  || match hay with
     | EmptyString => false
     | String _ rest => py_in needle rest
     end.

(** [str.lower()] on code points below 256: the ASCII capitals and the
    Latin-1 capitals U+00C0..U+00DE (U+00D7, the multiplication sign,
    excepted) move up by 32. *)
Definition lower_char (c : ascii) : ascii :=
  let n := N_of_ascii c in
  if ((65 <=? n) && (n <=? 90)
      || (192 <=? n) && (n <=? 222) && negb (n =? 215))%N
  then ascii_of_N (n + 32)
  else c.

Fixpoint lower (s : string) : string :=
  match s with
  | EmptyString => EmptyString
  | String c rest => String (lower_char c) (lower rest)
  end.

Definition hex_digit (n : N) : ascii :=
  ascii_of_N (if (n <? 10)%N then 48 + n else 87 + n).

Definition hex_escape (n : N) : string :=
  String backslash
    (String "x" (String (hex_digit (n / 16)) (String (hex_digit (n mod 16)) ""))).

(** Code points below 256 that [repr] prints as they are. *)
Definition printable (n : N) : bool :=
  ((32 <=? n) && (n <? 127) || (161 <=? n) && negb (n =? 173))%N.

Definition repr_char (quote c : ascii) : string :=
  let n := N_of_ascii c in
  if Ascii.eqb c quote || Ascii.eqb c backslash
  then String backslash (String c "")
  else if (n =? 9)%N then String backslash "t"
  else if (n =? 10)%N then String backslash "n"
  else if (n =? 13)%N then String backslash "r"
  else if printable n then String c ""
  else hex_escape n.

Fixpoint repr_chars (quote : ascii) (s : string) : string :=
  match s with
  | EmptyString => EmptyString
  | String c rest => repr_char quote c +:+ repr_chars quote rest
  end.

(** [repr] of a string: single quotes, unless the text has a single
    quote and no double quote. *)
Definition repr_str (s : string) : string :=
  let quote :=
    if py_in (String squote "") s && negb (py_in (String dquote "") s)
    then dquote else squote in
  String quote (repr_chars quote s +:+ String quote "").

(** [", ".join(parts)]. *)
Fixpoint join (parts : list string) : string :=
  match parts with
  | [] => ""
  | [p] => p
  | p :: rest => p +:+ ", " +:+ join rest
  end.

Fixpoint repr (v : PyVal) : string :=
  match v with
  | PyNone => "None"
  | PyBool true => "True"
  | PyBool false => "False"
  | PyInt z => pretty z
  | PyFloat printed => printed
  | PyStr s => repr_str s
  | PyList items => "[" +:+ join (map repr items) +:+ "]"
  | PyDict items =>
      "{" +:+ join (map (fun kv => repr_str (fst kv) +:+ ": " +:+ repr (snd kv)) items)
          +:+ "}"
  end.

(** [str(v)]: a string is itself, everything else prints as [repr]. *)
Definition str (v : PyVal) : string :=
  match v with
  | PyStr s => s
  | _ => repr v
  end.

(** [len(s)] as an integer. *)
Definition len (s : string) : Z := Z.of_nat (String.length s).

(** [l[start:]] for an integer [start]: a negative start counts from the
    end, and both directions clamp to the bounds of the list. *)
Definition slice_from {A} (start : Z) (l : list A) : list A :=
  if start <? 0
  then drop (Z.to_nat (Z.max 0 (Z.of_nat (length l) + start))) l
  else drop (Z.to_nat start) l.

(** [s.replace(old, "")]: every occurrence of [old], scanning from the
    left without overlap, is removed.  [skip] counts the characters of
    an occurrence that are still to be dropped. *)
Fixpoint remove_from (old : string) (skip : nat) (s : string) : string :=
  match s with
  | EmptyString => EmptyString
  | String c rest =>
      match skip with
      | S k => remove_from old k rest
      | O =>
          if String.prefix old s
          then remove_from old (Nat.pred (String.length old)) rest
          else String c (remove_from old 0 rest)
      end
  end.

Definition remove_all (old s : string) : string :=
  if String.eqb old "" then s else remove_from old 0 s.

End Py.

Import Py.

(** ** class SecurityService *)

Module SecurityService.

(** [self.security_policies]. *)
Record Policies : Type := {
  password_min_length : Z;
  session_timeout : Z;        (* seconds *)
  max_login_attempts : Z;
  require_2fa : bool;
  encryption_algorithm : string
}.

(** The dictionary built by [create_session]. [ip_address] is [None] when
    Flask has no remote address for the request. *)
Record Session : Type := {
  session_id : string;
  user_id : string;
  permissions : list string;
  created_at : Z;
  expires_at : Z;
  last_activity : Z;
  ip_address : option string;
  user_agent : string
}.

(** The dictionary built by [log_security_event]. *)
Record Event : Type := {
  timestamp : Z;
  event_type : string;
  details : PyVal;
  event_ip_address : option string;
  event_user_agent : string
}.

(** What Flask's [request] proxy offers to the service. *)
Record RequestCtx : Type := {
  remote_addr : option string;
  header_user_agent : option string
}.

(** What a call reads but never writes: the wall clock, the random source
    and the request in flight ([None] outside a request context).
    [clock k] is the [k]-th reading of [datetime.now()], in microseconds;
    [entropy k n] is the [k]-th result of [secrets.token_hex(n)]. *)
Record Ambient : Type := {
  clock : nat -> Z;
  entropy : nat -> Z -> string;
  request : option RequestCtx
}.

(** The service object, with the number of clock readings and random
    draws consumed so far. *)
Record World : Type := {
  sessions : gmap string Session;
  audit_log : list Event;
  security_policies : Policies;
  ticks : nat;
  draws : nat
}.

Definition set_sessions (f : gmap string Session -> gmap string Session) (w : World) : World :=
  {| sessions := f (sessions w); audit_log := audit_log w;
     security_policies := security_policies w; ticks := ticks w; draws := draws w |}.

Definition set_audit_log (f : list Event -> list Event) (w : World) : World :=
  {| sessions := sessions w; audit_log := f (audit_log w);
     security_policies := security_policies w; ticks := ticks w; draws := draws w |}.

Definition tick (w : World) : World :=
  {| sessions := sessions w; audit_log := audit_log w;
     security_policies := security_policies w; ticks := S (ticks w); draws := draws w |}.

Definition draw (w : World) : World :=
  {| sessions := sessions w; audit_log := audit_log w;
     security_policies := security_policies w; ticks := ticks w; draws := S (draws w) |}.

Definition touch (t : Z) (s : Session) : Session :=
  {| session_id := session_id s; user_id := user_id s; permissions := permissions s;
     created_at := created_at s; expires_at := expires_at s; last_activity := t;
     ip_address := ip_address s; user_agent := user_agent s |}.

(** *** The monad of service code: ambient reader, world state, exceptions.
    A raised exception keeps the world as it was when it was raised. *)

Inductive Exn : Type := ValueError (message : string).

Inductive Outcome (A : Type) : Type :=
| Returned (a : A)
| Raised (e : Exn).
Arguments Returned {A} a.
Arguments Raised {A} e.

Definition M (A : Type) : Type := Ambient -> World -> Outcome A * World.

#[global] Instance M_ret : MRet M := fun A a _ w => (Returned a, w).

#[global] Instance M_bind : MBind M := fun A B k m amb w =>
  match m amb w with
  | (Returned a, w') => k a amb w'
  | (Raised e, w') => (Raised e, w')
  end.

Definition raise {A} (e : Exn) : M A := fun _ w => (Raised e, w).

(** [try: body / except ValueError as e: handler(e)]. *)
Definition try_except {A} (body : M A) (handler : Exn -> M A) : M A := fun amb w =>
  match body amb w with
  | (Returned a, w') => (Returned a, w')
  | (Raised e, w') => handler e amb w'
  end.

Definition gets {A} (f : World -> A) : M A := fun _ w => (Returned (f w), w).
Definition modify (f : World -> World) : M unit := fun _ w => (Returned tt, f w).
Definition current_request : M (option RequestCtx) := fun amb w => (Returned (request amb), w).

(** [datetime.now()]. *)
Definition now : M Z := fun amb w => (Returned (clock amb (ticks w)), tick w).

(** [timedelta(seconds=n)]. *)
Definition seconds (n : Z) : Z := n * 1000000.

(** [request.remote_addr if request else "unknown"]. *)
Definition origin_ip (req : option RequestCtx) : option string :=
  match req with
  | Some r => remote_addr r
  | None => Some "unknown"
  end.

(** [request.headers.get('User-Agent', 'unknown') if request else "unknown"]. *)
Definition origin_agent (req : option RequestCtx) : string :=
  match req with
  | Some r => default "unknown" (header_user_agent r)
  | None => "unknown"
  end.

(** [__init__]. *)
Definition init : World := {|
  sessions := ∅;
  audit_log := [];
  security_policies := {|
    password_min_length := 8;
    session_timeout := 3600;
    max_login_attempts := 5;
    require_2fa := false;
    encryption_algorithm := "AES-256" |};
  ticks := 0;
  draws := 0
|}.

Definition generate_token (length : Z) : M string := fun amb w =>
  (Returned (entropy amb (draws w) length), draw w).

Definition log_security_event (event_type : string) (details : PyVal) : M unit :=
  t ← now;
  req ← current_request;
  let event := {| timestamp := t; event_type := event_type; details := details;
                  event_ip_address := origin_ip req;
                  event_user_agent := origin_agent req |} in
  modify (set_audit_log (fun log => log ++ [event])).

(** [permissions or ["read"]]: [None] and the empty list are falsy. *)
Definition or_read (permissions : option (list string)) : list string :=
  match permissions with
  | None | Some [] => ["read"]
  | Some ps => ps
  end.

Definition create_session (user_id : string) (permissions : option (list string)) : M Session :=
  session_id ← generate_token 32;
  created ← now;
  base ← now;
  timeout ← gets (fun w => session_timeout (security_policies w));
  active ← now;
  req ← current_request;
  let session_data := {|
    session_id := session_id;
    user_id := user_id;
    permissions := or_read permissions;
    created_at := created;
    expires_at := base + seconds timeout;
    last_activity := active;
    ip_address := origin_ip req;
    user_agent := origin_agent req |} in
  modify (set_sessions (fun m => <[session_id := session_data]> m));;
  log_security_event "session_created"
    (PyDict [("user_id", PyStr user_id); ("session_id", PyStr session_id)]);;
  mret session_data.

(** The session handed back is the stored dictionary itself, so writing
    its [last_activity] is a write to the store. *)
Definition validate_session (session_id : string) : M Session :=
  stored ← gets sessions;
  match stored !! session_id with
  | None => raise (ValueError "Invalid session")
  | Some session =>
      t ← now;
      if t >? expires_at session
      then modify (set_sessions (fun m => delete session_id m));;
           raise (ValueError "Session expired")
      else
        t' ← now;
        modify (set_sessions (fun m => <[session_id := touch t' session]> m));;
        mret (touch t' session)
  end.

Definition check_permissions (session_id required_permission : string) : M bool :=
  try_except
    (session ← validate_session session_id;
     mret (bool_decide (required_permission ∈ permissions session)
           || bool_decide ("admin" ∈ permissions session)))
    (fun _ => mret false).

(** The dictionary returned by [detect_threats]. *)
Record Verdict : Type := {
  threats_detected : list string;
  risk_score : Z;
  action : string
}.

Definition detect_threats (request_data : PyVal) : Verdict :=
  let threats : list string := [] in
  let risk_score := 0 in
  let '(threats, risk_score) :=
    if py_in "script" (lower (str request_data))
    then (threats ++ ["potential_xss"], risk_score + 30)
    else (threats, risk_score) in
  let '(threats, risk_score) :=
    if py_in "union" (lower (str request_data)) && py_in "select" (lower (str request_data))
    then (threats ++ ["potential_sql_injection"], risk_score + 50)
    else (threats, risk_score) in
  let '(threats, risk_score) :=
    if len (str request_data) >? 10000
    then (threats ++ ["oversized_request"], risk_score + 20)
    else (threats, risk_score) in
  {| threats_detected := threats;
     risk_score := risk_score;
     action := if risk_score >? 70 then "block"
               else if risk_score >? 30 then "monitor"
               else "allow" |}.

(** The verdict as the dictionary that is logged and sent back. *)
Definition verdict_dict (v : Verdict) : PyVal :=
  PyDict [("threats_detected", PyList (map PyStr (threats_detected v)));
          ("risk_score", PyInt (risk_score v));
          ("action", PyStr (action v))].

End SecurityService.

(** ** The Flask handlers *)

Module App.

Import SecurityService.

(** The JSON documents the handlers answer with, one constructor per
    shape. *)
Inductive Body : Type :=
| ErrorBody (error : string)
    (* {"error": error} *)
| LoginBody (session_id : string) (expires_at : Z) (permissions : list string)
    (* {"success": True, "session_id": .., "expires_at": .., "permissions": ..} *)
| LogoutBody (message : string)
    (* {"success": True, "message": message} *)
| ValidBody (user_id : string) (permissions : list string) (expires_at : Z)
    (* {"valid": True, "user_id": .., "permissions": .., "expires_at": ..} *)
| InvalidBody (error : string)
    (* {"valid": False, "error": error} *)
| ThreatBody (analysis : Verdict)
    (* {"success": True, "analysis": analysis} *)
| AuditBody (total_events filtered_events : nat) (events : list Event).
    (* {"success": True, "total_events": .., "filtered_events": .., "events": ..} *)

(** A handler's return value: the document and the HTTP status. *)
Record Response : Type := {
  body : Body;
  status : Z
}.

(** [return jsonify(doc)] answers with status 200. *)
Definition jsonify (doc : Body) : Response := {| body := doc; status := 200 |}.

(** A response that tells the caller of a failure: a 4xx/5xx status. *)
Definition reports_error (r : Response) : bool := 400 <=? status r.

(** The JSON body of [POST /auth/login], with string-valued fields.
    [requested_permissions] is [None] when the key is missing and
    [Some None] when it is [null]. *)
Record Credentials : Type := {
  username : option string;
  password : option string;
  requested_permissions : option (option (list string))
}.

(** The parts of a request that name a session: the [session_id] of the
    JSON body and the [Authorization] header. *)
Record SessionRef : Type := {
  body_session_id : option string;
  authorization : option string
}.

(** [data.get('session_id') or
     request.headers.get('Authorization', '').replace('Bearer ', '')]. *)
Definition requested_session_id (r : SessionRef) : string :=
  let from_header := remove_all "Bearer " (default "" (authorization r)) in
  match body_session_id r with
  | Some s => if String.eqb s "" then from_header else s
  | None => from_header
  end.

(** Python truthiness, for [request.get_json() or {}]. *)
Definition truthy (v : PyVal) : bool :=
  match v with
  | PyNone => false
  | PyBool b => b
  | PyInt z => negb (z =? 0)
  | PyFloat printed => negb (String.eqb printed "0.0" || String.eqb printed "-0.0")
  | PyStr s => negb (String.eqb s "")
  | PyList items => negb (bool_decide (items = []))
  | PyDict items => negb (bool_decide (length items = 0%nat))
  end.

Definition or_empty_dict (data : option PyVal) : PyVal :=
  match data with
  | Some v => if truthy v then v else PyDict []
  | None => PyDict []
  end.

Definition login (data : option Credentials) : M Response :=
  match data with
  | None => mret {| body := ErrorBody "Missing username or password"; status := 400 |}
  | Some data =>
      match username data, password data with
      | Some username, Some password =>
          min_length ← gets (fun w => password_min_length (security_policies w));
          if len password >=? min_length
          then
            let requested := default (Some ["read"; "write"]) (requested_permissions data) in
            session ← create_session username requested;
            mret (jsonify (LoginBody (session_id session) (expires_at session)
                                     (permissions session)))
          else
            log_security_event "login_failed"
              (PyDict [("username", PyStr username); ("reason", PyStr "weak_password")]);;
            mret {| body := ErrorBody "Authentication failed"; status := 401 |}
      | _, _ => mret {| body := ErrorBody "Missing username or password"; status := 400 |}
      end
  end.

Definition logout (ref : SessionRef) : M Response :=
  let session_id := requested_session_id ref in
  stored ← gets sessions;
  match stored !! session_id with
  | Some session =>
      let user_id := user_id session in
      modify (set_sessions (fun m => delete session_id m));;
      log_security_event "session_destroyed"
        (PyDict [("session_id", PyStr session_id); ("user_id", PyStr user_id)]);;
      mret (jsonify (LogoutBody "Logged out successfully"))
  | None => mret {| body := ErrorBody "Invalid session"; status := 400 |}
  end.

Definition validate_session (ref : SessionRef) : M Response :=
  let session_id := requested_session_id ref in
  try_except
    (session ← SecurityService.validate_session session_id;
     mret (jsonify (ValidBody (user_id session) (permissions session) (expires_at session))))
    (fun e => match e with
              | ValueError message =>
                  mret {| body := InvalidBody message; status := 401 |}
              end).

Definition threat_scan (json : option PyVal) : M Response :=
  let data := or_empty_dict json in
  let threat_analysis := detect_threats data in
  log_security_event "threat_scan" (verdict_dict threat_analysis);;
  mret (jsonify (ThreatBody threat_analysis)).

(** [limit] is the query argument parsed as an integer ([None] when it is
    missing or does not parse), [type] the optional type filter. *)
Definition get_audit_events (limit : option Z) (type : option string) : M Response :=
  let limit := default 100 limit in
  events ← gets audit_log;
  let filtered :=
    match type with
    | Some ty => if String.eqb ty "" then events
                 else filter (fun e => event_type e = ty) events
    | None => events
    end in
  mret (jsonify (AuditBody (length events) (length filtered) (slice_from (- limit) filtered))).

End App.

(** ** class SecurityService, continued: encryption and compliance *)

Module DataProtection.

Import SecurityService.

(** [chr(ord(char) ^ ord(k))]. *)
Definition xor_char (c k : ascii) : ascii :=
  ascii_of_N (N.lxor (N_of_ascii c) (N_of_ascii k)).

(** The loop of [encrypt_data], from index [i] on: each character is
    combined with [key[i % len(key)]].  [None] stands for the
    [ZeroDivisionError] that [i % len(key)] raises when the key is empty
    and there is a character to encrypt. *)
Fixpoint xor_loop (key : string) (i : nat) (data : string) : option string :=
  match data with
  | EmptyString => Some EmptyString
  | String c rest =>
      match String.length key with
      | O => None
      | S _ =>
          k ← String.get (i mod String.length key) key;
          encrypted ← xor_loop key (S i) rest;
          Some (String (xor_char c k) encrypted)
      end
  end.

(** [s.encode('utf-8')] on code points below 256: one byte below 128, two
    bytes from 128 on. *)
Definition utf8_char (c : ascii) : list N :=
  let n := N_of_ascii c in
  if (n <? 128)%N then [n] else [(192 + n / 64)%N; (128 + n mod 64)%N].

Fixpoint utf8 (s : string) : list N :=
  match s with
  | EmptyString => []
  | String c rest => utf8_char c ++ utf8 rest
  end.

(** [bytes.hex()]: two lower-case digits per byte. *)
Fixpoint hex (bytes : list N) : string :=
  match bytes with
  | [] => EmptyString
  | b :: rest => String (hex_digit (b / 16)) (String (hex_digit (b mod 16)) (hex rest))
  end.

(** The dictionary returned by [encrypt_data]. *)
Record Encrypted : Type := {
  encrypted_data : string;
  key : string;
  algorithm : string
}.

(** [encrypt_data(data, key)]: a missing or empty key is replaced by a
    fresh 16-byte token.  The result is [None] when the loop raises. *)
Definition encrypt_data (data : string) (key : option string)
  : Ambient -> World -> option Encrypted * World := fun amb w =>
  let '(key, w') :=
    match key with
    | Some k => if String.eqb k "" then (entropy amb (draws w) 16, draw w) else (k, w)
    | None => (entropy amb (draws w) 16, draw w)
    end in
  (encrypted ← xor_loop key 0 data;
   Some {| encrypted_data := hex (utf8 encrypted); key := key; algorithm := "XOR-Demo" |},
   w').

(** The dictionary returned by [compliance_check]. *)
Record Compliance : Type := {
  gdpr_compliant : bool;
  ccpa_compliant : bool;
  soc2_compliant : bool;
  requirements : list string
}.

Definition compliance_check (data_type operation : string) : Compliance :=
  let requirements : list string := [] in
  let requirements :=
    if String.eqb data_type "personal_data"
    then requirements ++ ["user_consent_required"; "data_retention_policy"; "right_to_deletion"]
    else requirements in
  let requirements :=
    if String.eqb operation "data_export"
    then requirements ++ ["data_portability"]
    else requirements in
  {| gdpr_compliant := true; ccpa_compliant := true; soc2_compliant := true;
     requirements := requirements |}.

End DataProtection.

(** ** The Flask handlers, continued *)

Module DataRoutes.

Import SecurityService.

(** The JSON documents of these handlers. *)
Inductive Document : Type :=
| Failure (error : string)
    (* {"error": error} *)
| EncryptResult (result : DataProtection.Encrypted)
    (* {"success": True, "result": result} *)
| ComplianceResult (compliance : DataProtection.Compliance)
    (* {"success": True, "compliance": compliance} *)
| PoliciesResult (policies : Policies)
    (* {"success": True, "policies": policies} *)
| HealthResult (timestamp : Z) (active_sessions audit_events : nat) (policies : Policies).
    (* {"status": "healthy", .., "timestamp": .., "active_sessions": ..,
        "audit_events": .., "security_policies": ..}; the constant entries
       are left out *)

(** A handler's answer: the document and the HTTP status.  [Crash] is an
    exception that leaves the handler, which Flask turns into a 500. *)
Inductive Answer : Type :=
| Reply (doc : Document) (status : Z)
| Crash.

(** The JSON body of [POST /security/encrypt] when it is an object, with
    string-valued fields; a missing key is [None]. *)
Record EncryptRequest : Type := {
  req_data : option string;
  req_key : option string
}.

(** The JSON body of [POST /compliance/check], with string-valued fields. *)
Record ComplianceRequest : Type := {
  req_data_type : option string;
  req_operation : option string
}.

Definition health : Ambient -> World -> Answer * World := fun amb w =>
  (Reply (HealthResult (clock amb (ticks w)) (size (sessions w)) (length (audit_log w))
            (security_policies w)) 200,
   tick w).

Definition encrypt_data (json : option EncryptRequest)
  : Ambient -> World -> Answer * World := fun amb w =>
  match json with
  | None => (Reply (Failure "Missing 'data' in request") 400, w)
  | Some json =>
      match req_data json with
      | None => (Reply (Failure "Missing 'data' in request") 400, w)
      | Some data =>
          match DataProtection.encrypt_data data (req_key json) amb w with
          | (Some result, w') => (Reply (EncryptResult result) 200, w')
          | (None, w') => (Crash, w')
          end
      end
  end.

Definition compliance_check (json : option ComplianceRequest) : Answer :=
  match json with
  | None => Reply (Failure "Missing 'data_type' or 'operation' in request") 400
  | Some json =>
      match req_data_type json, req_operation json with
      | Some data_type, Some operation =>
          Reply (ComplianceResult (DataProtection.compliance_check data_type operation)) 200
      | _, _ => Reply (Failure "Missing 'data_type' or 'operation' in request") 400
      end
  end.

Definition get_security_policies (w : World) : Answer :=
  Reply (PoliciesResult (security_policies w)) 200.

End DataRoutes.

Import SecurityService.

(** ** Concrete service states used in the examples *)

(** A clock that starts at 1000 and advances by one per reading, a random
    source that numbers its tokens, and no request context. *)
Definition demo_ambient : Ambient := {|
  clock := fun k => 1000 + Z.of_nat k;
  entropy := fun k _ => "token-" +:+ pretty k;
  request := None
|}.

Definition demo_session (deadline : Z) : Session := {|
  session_id := "s1";
  user_id := "alice";
  permissions := ["read"];
  created_at := 0;
  expires_at := deadline;
  last_activity := 0;
  ip_address := Some "10.0.0.7";
  user_agent := "curl/8"
|}.

(** One stored session, "s1", with the given deadline. *)
Definition demo_world (deadline : Z) : World :=
  set_sessions (fun m => <["s1" := demo_session deadline]> m) init.

(** At clock 1000 a deadline of 500 has passed, one of 5000 has not. *)
Definition expired_world : World := demo_world 500.
Definition live_world : World := demo_world 5000.

(** An ambient whose random source repeats the id of the demo session. *)
Definition repeating_ambient : Ambient := {|
  clock := clock demo_ambient;
  entropy := fun _ _ => "s1";
  request := None
|}.

(** ** Vocabulary of the properties *)

(** The three detectors of [detect_threats], each read off its [if]. *)
Definition script_indicator (p : PyVal) : bool :=
  py_in "script" (lower (str p)).

Definition sql_keywords (p : PyVal) : bool :=
  py_in "union" (lower (str p)) && py_in "select" (lower (str p)).

Definition oversized (p : PyVal) : bool :=
  len (str p) >? 10000.

Definition weight (fired : bool) (w : Z) : Z := if fired then w else 0.

Definition signal (fired : bool) (name : string) : list string :=
  if fired then [name] else [].

(** The payload of the specification's scenario,
    [{"q": "<script>alert(1)</script>"}]. *)
Definition script_payload : PyVal :=
  PyDict [("q", PyStr "<script>alert(1)</script>")].

(** Unfolds one layer of monadic plumbing. *)
Ltac run :=
  unfold mbind, M_bind, mret, M_ret, gets, modify, raise, now, current_request,
    generate_token, try_except; simpl.

(** The event [log_security_event] builds at a given world. *)
Definition event_at (amb : Ambient) (w : World) (ty : string) (d : PyVal) : Event := {|
  timestamp := clock amb (ticks w);
  event_type := ty;
  details := d;
  event_ip_address := origin_ip (request amb);
  event_user_agent := origin_agent (request amb)
|}.

(** A run of appends: one [log_security_event] per entry, in order. *)
Fixpoint append_all (entries : list (string * PyVal)) : M unit :=
  match entries with
  | [] => mret tt
  | (ty, d) :: rest => log_security_event ty d;; append_all rest
  end.

(** The events such a run builds when the clock has been read [k] times
    before. *)
Fixpoint events_from (amb : Ambient) (k : nat) (entries : list (string * PyVal)) : list Event :=
  match entries with
  | [] => []
  | (ty, d) :: rest =>
      {| timestamp := clock amb k; event_type := ty; details := d;
         event_ip_address := origin_ip (request amb);
         event_user_agent := origin_agent (request amb) |}
      :: events_from amb (S k) rest
  end.

(** The session [create_session] builds at a given world: the next token,
    three successive clock readings, the policy timeout and the origin of
    the request. *)
Definition session_at (amb : Ambient) (w : World) (user : string)
    (perms : option (list string)) : Session := {|
  session_id := entropy amb (draws w) 32;
  user_id := user;
  permissions := or_read perms;
  created_at := clock amb (ticks w);
  expires_at := clock amb (S (ticks w)) + seconds (session_timeout (security_policies w));
  last_activity := clock amb (S (S (ticks w)));
  ip_address := origin_ip (request amb);
  user_agent := origin_agent (request amb)
|}.

(** The world [create_session] leaves behind. *)
Definition created_world (amb : Ambient) (w : World) (user : string)
    (perms : option (list string)) : World :=
  let s := session_at amb w user perms in
  let stored := set_sessions (fun m => <[session_id s := s]> m) (tick (tick (tick (draw w)))) in
  set_audit_log
    (fun log => log ++ [event_at amb stored "session_created"
                          (PyDict [("user_id", PyStr user);
                                   ("session_id", PyStr (session_id s))])])
    (tick stored).

(** The JSON body of a login request that has both [username] and
    [password]. *)
Definition credentials (user secret : string) (perms : option (option (list string)))
  : App.Credentials :=
  {| App.username := Some user; App.password := Some secret;
     App.requested_permissions := perms |}.

(** The event types the handlers write. *)
Definition known_event_types : list string :=
  ["session_created"; "session_destroyed"; "login_failed"; "threat_scan"].

(** The events a query selects before it cuts the list down to the
    limit: all of them when the type is missing or empty, those of the
    given type otherwise. *)
Definition selected_events (log : list Event) (type : option string) : list Event :=
  match type with
  | Some ty => if String.eqb ty "" then log else filter (fun e => event_type e = ty) log
  | None => log
  end.

(** How severe an action is. *)
Definition severity (action : string) : Z :=
  if String.eqb action "block" then 2
  else if String.eqb action "monitor" then 1
  else 0.

(** A service whose audit log holds three events, at clock readings
    1000, 1001 and 1002. *)
Definition logged_world : World :=
  snd (append_all [("login_failed", PyNone); ("threat_scan", PyNone);
                   ("login_failed", PyNone)] demo_ambient init).

(** The requests the service answers, one constructor per route that
    reads or writes sessions or the audit log. *)
Inductive Call : Type :=
| PostLogin (data : option App.Credentials)
| PostLogout (ref : App.SessionRef)
| PostValidate (ref : App.SessionRef)
| PostThreatScan (json : option PyVal)
| GetAuditEvents (limit : option Z) (type : option string).

Definition serve (c : Call) : M App.Response :=
  match c with
  | PostLogin data => App.login data
  | PostLogout ref => App.logout ref
  | PostValidate ref => App.validate_session ref
  | PostThreatScan json => App.threat_scan json
  | GetAuditEvents limit type => App.get_audit_events limit type
  end.

(** The states the service can be in: the fresh one, and any state a
    request leaves behind, whatever the clock, the random source and the
    request origin were. *)
Inductive reachable : World -> Prop :=
| reachable_init : reachable init
| reachable_serve amb c w : reachable w -> reachable (snd (serve c amb w)).

(** Every entry of a session table sits under its own id and grants at
    least one permission. *)
Definition well_formed (m : gmap string Session) : Prop :=
  ∀ sid s, m !! sid = Some s → session_id s = sid ∧ permissions s ≠ [].

(** A failed login, a scan, a login and a logout, in this order. *)
Definition busy_world : World :=
  let w1 := snd (serve (PostLogin (Some (credentials "alice" "short" None)))
                   demo_ambient init) in
  let w2 := snd (serve (PostThreatScan (Some script_payload)) demo_ambient w1) in
  let w3 := snd (serve (PostLogin (Some (credentials "alice" "12345678" None)))
                   demo_ambient w2) in
  snd (serve (PostLogout {| App.body_session_id := Some "token-0";
                            App.authorization := None |}) demo_ambient w3).

(** * Properties *)

(** ** Threat scoring *)

Lemma detect_threats_unfold (p : PyVal) :
  detect_threats p =
  let score := weight (script_indicator p) 30 + weight (sql_keywords p) 50
               + weight (oversized p) 20 in
  {| threats_detected :=
       signal (script_indicator p) "potential_xss"
       ++ signal (sql_keywords p) "potential_sql_injection"
       ++ signal (oversized p) "oversized_request";
     risk_score := score;
     action := if score >? 70 then "block"
               else if score >? 30 then "monitor" else "allow" |}.
Proof.
  unfold detect_threats, script_indicator, sql_keywords, oversized, weight, signal.
  destruct (py_in "script" _), (py_in "union" _), (py_in "select" _),
    (len _ >? 10000); reflexivity.
Qed.

(** C3. For every payload, [detect_threats] returns as risk score the sum
    of the weights of the detectors that fire (30 for the script
    indicator, 50 for "union" together with "select", 20 for a text longer
    than 10000 characters), lists exactly the fired signals, and chooses
    the action block above 70, monitor above 30 and up to 70, allow
    otherwise. *)
Theorem detect_threats_sums_weights (p : PyVal) :
  risk_score (detect_threats p)
  = weight (script_indicator p) 30 + weight (sql_keywords p) 50 + weight (oversized p) 20
  ∧ threats_detected (detect_threats p)
    = signal (script_indicator p) "potential_xss"
      ++ signal (sql_keywords p) "potential_sql_injection"
      ++ signal (oversized p) "oversized_request"
  ∧ (action (detect_threats p) = "block" ↔ 70 < risk_score (detect_threats p))
  ∧ (action (detect_threats p) = "monitor"
     ↔ 30 < risk_score (detect_threats p) <= 70)
  ∧ (action (detect_threats p) = "allow" ↔ risk_score (detect_threats p) <= 30).
Proof.
  rewrite detect_threats_unfold. cbn zeta. simpl risk_score. simpl action.
  simpl threats_detected.
  set (score := weight _ 30 + weight _ 50 + weight _ 20).
  split; [reflexivity|]. split; [reflexivity|].
  destruct (Z.gtb_spec score 70) as [Hb|Hb];
    [|destruct (Z.gtb_spec score 30) as [Hm|Hm]];
    repeat split; intros; try lia; try discriminate; try reflexivity.
Qed.

(** The scenario payload prints as Python prints it. *)
Example script_payload_text :
  str script_payload = "{'q': '<script>alert(1)</script>'}".
Proof. reflexivity. Qed.

(** C4, as the code behaves. Scoring [{"q": "<script>alert(1)</script>"}]
    reports the script signal alone, with risk score 30; since 30 is not
    above the monitor threshold of 30, the action is allow. *)
Theorem script_payload_verdict :
  detect_threats script_payload
  = {| threats_detected := ["potential_xss"]; risk_score := 30; action := "allow" |}
  ∧ "potential_xss" ∈ threats_detected (detect_threats script_payload)
  ∧ 30 <= risk_score (detect_threats script_payload).
Proof.
  assert (E : detect_threats script_payload
              = {| threats_detected := ["potential_xss"]; risk_score := 30;
                   action := "allow" |}) by (vm_compute; reflexivity).
  rewrite E. split; [reflexivity|]. split; [|simpl; lia].
  simpl. apply list_elem_of_here.
Qed.

(** C4, as stated, fails: the action for the scenario payload is not
    monitor. *)
Lemma script_payload_not_monitored :
  ¬ ("potential_xss" ∈ threats_detected (detect_threats script_payload)
     ∧ 30 <= risk_score (detect_threats script_payload)
     ∧ action (detect_threats script_payload) = "monitor").
Proof.
  intros (_ & _ & H). vm_compute in H. discriminate H.
Qed.

(** C10. The action is block exactly when the script indicator and the
    SQL keyword pair both fire; any other combination of signals scores at
    most 70, which is not above the block threshold. *)
Theorem block_needs_script_and_sql (p : PyVal) :
  (action (detect_threats p) = "block"
   ↔ script_indicator p = true ∧ sql_keywords p = true)
  ∧ risk_score (detect_threats p)
    <= (if script_indicator p && sql_keywords p then 100 else 70).
Proof.
  rewrite detect_threats_unfold. cbn zeta. simpl risk_score. simpl action.
  unfold weight.
  destruct (script_indicator p), (sql_keywords p), (oversized p); simpl;
    (split; [split; [intros H; try discriminate H; auto | intros [H1 H2]; try discriminate; reflexivity] | lia]).
Qed.

(** ** Sessions *)

Lemma validate_session_absent amb w sid :
  sessions w !! sid = None →
  validate_session sid amb w = (Raised (ValueError "Invalid session"), w).
Proof. intros H. unfold validate_session. run. rewrite H. reflexivity. Qed.

Lemma validate_session_expired amb w sid s :
  sessions w !! sid = Some s →
  (clock amb (ticks w) >? expires_at s) = true →
  validate_session sid amb w
  = (Raised (ValueError "Session expired"), set_sessions (delete sid) (tick w)).
Proof. intros H Ht. unfold validate_session. run. rewrite H. run. rewrite Ht. reflexivity. Qed.

Lemma validate_session_live amb w sid s :
  sessions w !! sid = Some s →
  (clock amb (ticks w) >? expires_at s) = false →
  validate_session sid amb w
  = (Returned (touch (clock amb (S (ticks w))) s),
     set_sessions (insert sid (touch (clock amb (S (ticks w))) s)) (tick (tick w))).
Proof. intros H Ht. unfold validate_session. run. rewrite H. run. rewrite Ht. reflexivity. Qed.

(** C1. [validate_session] on an id that is not stored raises
    "Invalid session" and leaves the service as it was; on a stored
    session whose deadline the clock has passed it deletes the entry and
    raises "Session expired", after which validating the same id raises
    "Invalid session"; otherwise it writes the next clock reading into the
    session's [last_activity] and returns the session: the session
    returned is the one now stored, and its [last_activity] is that clock
    reading. *)
Theorem validate_session_outcomes (amb : Ambient) (w : World) (sid : string) :
  match sessions w !! sid with
  | None =>
      validate_session sid amb w = (Raised (ValueError "Invalid session"), w)
  | Some s =>
      if clock amb (ticks w) >? expires_at s
      then
        validate_session sid amb w
        = (Raised (ValueError "Session expired"), set_sessions (delete sid) (tick w))
        ∧ sessions (snd (validate_session sid amb w)) !! sid = None
        ∧ ∀ amb', fst (validate_session sid amb' (snd (validate_session sid amb w)))
                  = Raised (ValueError "Invalid session")
      else
        validate_session sid amb w
        = (Returned (touch (clock amb (S (ticks w))) s),
           set_sessions (insert sid (touch (clock amb (S (ticks w))) s)) (tick (tick w)))
        ∧ sessions (snd (validate_session sid amb w)) !! sid
          = Some (touch (clock amb (S (ticks w))) s)
        ∧ ∃ s',
            fst (validate_session sid amb w) = Returned s'
            ∧ sessions (snd (validate_session sid amb w)) !! sid = Some s'
            ∧ last_activity s' = clock amb (S (ticks w))
  end.
Proof.
  destruct (sessions w !! sid) as [s|] eqn:Hs.
  - destruct (clock amb (ticks w) >? expires_at s) eqn:Ht.
    + rewrite (validate_session_expired _ _ _ _ Hs Ht). simpl.
      assert (Hgone : delete sid (sessions w) !! sid = None) by apply lookup_delete_eq.
      split; [reflexivity|]. split; [exact Hgone|].
      intros amb'. rewrite validate_session_absent; [reflexivity | exact Hgone].
    + rewrite (validate_session_live _ _ _ _ Hs Ht). simpl.
      split; [reflexivity|]. split; [apply lookup_insert_eq|].
      exists (touch (clock amb (S (ticks w))) s).
      split; [reflexivity|]. split; [apply lookup_insert_eq | reflexivity].
  - apply validate_session_absent, Hs.
Qed.

(** C5. Validating a stored session whose deadline has not passed
    succeeds, and the session it returns and stores differs from the
    stored one in [last_activity] only: the deadline, id, principal,
    permissions, creation time and origin are the same, every other
    session and the audit log are untouched. *)
Theorem validate_session_moves_only_last_activity
    (amb : Ambient) (w : World) (sid : string) (s : Session) :
  sessions w !! sid = Some s →
  clock amb (ticks w) <= expires_at s →
  ∃ s' w',
    validate_session sid amb w = (Returned s', w')
    ∧ sessions w' !! sid = Some s'
    ∧ s' = touch (last_activity s') s
    ∧ expires_at s' = expires_at s
    ∧ session_id s' = session_id s
    ∧ user_id s' = user_id s
    ∧ permissions s' = permissions s
    ∧ created_at s' = created_at s
    ∧ ip_address s' = ip_address s
    ∧ user_agent s' = user_agent s
    ∧ (∀ other, other ≠ sid → sessions w' !! other = sessions w !! other)
    ∧ audit_log w' = audit_log w.
Proof.
  intros Hs Hlive.
  assert (Ht : (clock amb (ticks w) >? expires_at s) = false)
    by (rewrite Z.gtb_ltb; apply Z.ltb_ge; exact Hlive).
  eexists _, _. split; [apply (validate_session_live _ _ _ _ Hs Ht)|].
  simpl. split; [apply lookup_insert_eq|].
  repeat (split; [reflexivity|]).
  split; [|reflexivity].
  intros other Hne. apply lookup_insert_ne. congruence.
Qed.

Lemma validate_session_moves_only_last_activity_witness :
  sessions live_world !! "s1" = Some (demo_session 5000)
  ∧ clock demo_ambient (ticks live_world) <= expires_at (demo_session 5000)
  ∧ ∃ s' w',
      validate_session "s1" demo_ambient live_world = (Returned s', w')
      ∧ sessions w' !! "s1" = Some s'
      ∧ s' = touch (last_activity s') (demo_session 5000)
      ∧ expires_at s' = expires_at (demo_session 5000)
      ∧ session_id s' = session_id (demo_session 5000)
      ∧ user_id s' = user_id (demo_session 5000)
      ∧ permissions s' = permissions (demo_session 5000)
      ∧ created_at s' = created_at (demo_session 5000)
      ∧ ip_address s' = ip_address (demo_session 5000)
      ∧ user_agent s' = user_agent (demo_session 5000)
      ∧ (∀ other, other ≠ "s1" → sessions w' !! other = sessions live_world !! other)
      ∧ audit_log w' = audit_log live_world.
Proof.
  split; [reflexivity|]. split; [simpl; lia|].
  apply (validate_session_moves_only_last_activity demo_ambient live_world "s1"
           (demo_session 5000)); [reflexivity | simpl; lia].
Defined.

(** On the concrete states: an expired session is reported once as
    expired and from then on as unknown. *)
Example expired_then_invalid :
  fst (validate_session "s1" demo_ambient expired_world)
  = Raised (ValueError "Session expired")
  ∧ fst (validate_session "s1" demo_ambient
           (snd (validate_session "s1" demo_ambient expired_world)))
    = Raised (ValueError "Invalid session")
  ∧ fst (validate_session "nobody" demo_ambient expired_world)
    = Raised (ValueError "Invalid session")
  ∧ fst (validate_session "s1" demo_ambient live_world)
    = Returned (touch 1001 (demo_session 5000)).
Proof. repeat split; vm_compute; reflexivity. Qed.

(** ** Audit trail of failures *)

Lemma log_security_event_appends amb w ty d :
  log_security_event ty d amb w
  = (Returned tt, set_audit_log (fun log => log ++ [event_at amb w ty d]) (tick w)).
Proof. reflexivity. Qed.

Lemma validate_session_keeps_audit_log amb w sid :
  audit_log (snd (validate_session sid amb w)) = audit_log w.
Proof.
  destruct (sessions w !! sid) as [s|] eqn:Hs.
  - destruct (clock amb (ticks w) >? expires_at s) eqn:Ht.
    + rewrite (validate_session_expired _ _ _ _ Hs Ht). reflexivity.
    + rewrite (validate_session_live _ _ _ _ Hs Ht). reflexivity.
  - rewrite (validate_session_absent _ _ _ Hs). reflexivity.
Qed.

Lemma app_validate_session_keeps_audit_log amb w ref :
  audit_log (snd (App.validate_session ref amb w)) = audit_log w.
Proof.
  unfold App.validate_session. run.
  pose proof (validate_session_keeps_audit_log amb w (App.requested_session_id ref)) as H.
  destruct (validate_session _ amb w) as [[s|[msg]] w']; simpl in *; exact H.
Qed.

(** C2, as stated, fails for the expired session: validating it raises
    "Session expired" (and the handler answers 401) while the audit log
    stays empty. *)
Lemma expired_session_leaves_no_audit_event :
  fst (validate_session "s1" demo_ambient expired_world)
  = Raised (ValueError "Session expired")
  ∧ audit_log (snd (validate_session "s1" demo_ambient expired_world)) = []
  ∧ App.validate_session {| App.body_session_id := Some "s1"; App.authorization := None |}
      demo_ambient expired_world
    = (Returned {| App.body := App.InvalidBody "Session expired"; App.status := 401 |},
       set_sessions (fun m => delete "s1" m) (tick expired_world))
  ∧ ¬ ∃ e, audit_log (snd (validate_session "s1" demo_ambient expired_world))
           = audit_log expired_world ++ [e].
Proof.
  split; [vm_compute; reflexivity|]. split; [vm_compute; reflexivity|].
  split; [vm_compute; reflexivity|].
  intros [e He]. rewrite validate_session_keeps_audit_log in He.
  apply (f_equal length) in He. rewrite length_app in He. simpl in He. lia.
Qed.

(** C2, as the code behaves. A login whose secret is shorter than the
    policy minimum appends a [login_failed] event and then answers 401
    "Authentication failed"; every threat scan, a blocked verdict
    included, appends a [threat_scan] event that carries the verdict;
    validating a session never touches the audit log, whether it succeeds
    or raises. *)
Theorem failures_and_the_audit_log
    (amb : Ambient) (w : World) (data : App.Credentials) (user secret : string)
    (json : option PyVal) (sid : string) (ref : App.SessionRef) :
  App.username data = Some user →
  App.password data = Some secret →
  len secret < password_min_length (security_policies w) →
  App.login (Some data) amb w
  = (Returned {| App.body := App.ErrorBody "Authentication failed"; App.status := 401 |},
     set_audit_log
       (fun log => log ++ [event_at amb w "login_failed"
                             (PyDict [("username", PyStr user);
                                      ("reason", PyStr "weak_password")])])
       (tick w))
  ∧ App.threat_scan json amb w
    = (Returned (App.jsonify (App.ThreatBody (detect_threats (App.or_empty_dict json)))),
       set_audit_log
         (fun log => log ++ [event_at amb w "threat_scan"
                               (verdict_dict (detect_threats (App.or_empty_dict json)))])
         (tick w))
  ∧ audit_log (snd (validate_session sid amb w)) = audit_log w
  ∧ audit_log (snd (App.validate_session ref amb w)) = audit_log w.
Proof.
  intros Hu Hp Hshort. split; [|split; [reflexivity|split]].
  - unfold App.login. rewrite Hu, Hp. run.
    assert (E : (len secret >=? password_min_length (security_policies w)) = false)
      by (rewrite Z.geb_leb; apply Z.leb_gt; exact Hshort).
    rewrite E. reflexivity.
  - apply validate_session_keeps_audit_log.
  - apply app_validate_session_keeps_audit_log.
Qed.

Lemma failures_and_the_audit_log_witness :
  len "short" < password_min_length (security_policies init)
  ∧ App.login
      (Some {| App.username := Some "alice"; App.password := Some "short";
               App.requested_permissions := Some (Some []) |})
      demo_ambient init
    = (Returned {| App.body := App.ErrorBody "Authentication failed"; App.status := 401 |},
       set_audit_log
         (fun log => log ++ [event_at demo_ambient init "login_failed"
                               (PyDict [("username", PyStr "alice");
                                        ("reason", PyStr "weak_password")])])
         (tick init)).
Proof.
  split; [vm_compute; reflexivity|].
  apply (failures_and_the_audit_log demo_ambient init
           {| App.username := Some "alice"; App.password := Some "short";
              App.requested_permissions := Some (Some []) |}
           "alice" "short" None "s1"
           {| App.body_session_id := None; App.authorization := None |});
    [reflexivity | reflexivity | vm_compute; reflexivity].
Defined.

(** A payload that trips both the script and the SQL detector is blocked,
    and the scan that blocks it is on the audit log. *)
Example blocked_scan_is_logged :
  let payload := PyDict [("q", PyStr "<SCRIPT>x</SCRIPT> 1 UNION SELECT *")] in
  action (detect_threats payload) = "block"
  ∧ map event_type (audit_log (snd (App.threat_scan (Some payload) demo_ambient init)))
    = ["threat_scan"].
Proof. split; vm_compute; reflexivity. Qed.

(** ** Logout *)

(** C6, as stated, fails: logging out an id that is not stored answers
    with the error document and status 400. *)
Lemma logout_unknown_reports_error :
  App.logout {| App.body_session_id := Some "s1"; App.authorization := None |}
    demo_ambient init
  = (Returned {| App.body := App.ErrorBody "Invalid session"; App.status := 400 |}, init)
  ∧ App.reports_error
      {| App.body := App.ErrorBody "Invalid session"; App.status := 400 |} = true
  ∧ ¬ (∃ r w', App.logout {| App.body_session_id := Some "s1"; App.authorization := None |}
                 demo_ambient init = (Returned r, w')
               ∧ App.reports_error r = false).
Proof.
  split; [reflexivity|]. split; [reflexivity|].
  intros (r & w' & Hrun & Hr).
  change (App.logout _ demo_ambient init)
    with (Returned {| App.body := App.ErrorBody "Invalid session"; App.status := 400 |}, init)
    in Hrun.
  inversion Hrun; subst r. discriminate Hr.
Qed.

(** C6, as the code behaves. Logging out an id with no stored session
    answers [{"error": "Invalid session"}] with status 400, raises nothing
    and changes nothing. Logging out a stored session deletes it, appends
    a [session_destroyed] event and answers success with status 200; a
    second logout of the same id then gets the status 400 answer and
    leaves the service as the first one left it. *)
Theorem logout_outcomes (amb : Ambient) (w : World) (ref : App.SessionRef) :
  match sessions w !! App.requested_session_id ref with
  | None =>
      App.logout ref amb w
      = (Returned {| App.body := App.ErrorBody "Invalid session"; App.status := 400 |}, w)
  | Some s =>
      App.logout ref amb w
      = (Returned (App.jsonify (App.LogoutBody "Logged out successfully")),
         set_audit_log
           (fun log => log ++ [event_at amb (set_sessions (delete (App.requested_session_id ref)) w)
                                 "session_destroyed"
                                 (PyDict [("session_id", PyStr (App.requested_session_id ref));
                                          ("user_id", PyStr (user_id s))])])
           (tick (set_sessions (delete (App.requested_session_id ref)) w)))
      ∧ sessions (snd (App.logout ref amb w)) !! App.requested_session_id ref = None
      ∧ ∀ amb',
          App.logout ref amb' (snd (App.logout ref amb w))
          = (Returned {| App.body := App.ErrorBody "Invalid session"; App.status := 400 |},
             snd (App.logout ref amb w))
  end.
Proof.
  assert (Habsent : ∀ amb0 w0, sessions w0 !! App.requested_session_id ref = None →
            App.logout ref amb0 w0
            = (Returned {| App.body := App.ErrorBody "Invalid session"; App.status := 400 |}, w0)).
  { intros amb0 w0 H0. unfold App.logout. run. rewrite H0. reflexivity. }
  destruct (sessions w !! App.requested_session_id ref) as [s|] eqn:Hs.
  - assert (Hrun : App.logout ref amb w
      = (Returned (App.jsonify (App.LogoutBody "Logged out successfully")),
         set_audit_log
           (fun log => log ++ [event_at amb (set_sessions (delete (App.requested_session_id ref)) w)
                                 "session_destroyed"
                                 (PyDict [("session_id", PyStr (App.requested_session_id ref));
                                          ("user_id", PyStr (user_id s))])])
           (tick (set_sessions (delete (App.requested_session_id ref)) w)))).
    { unfold App.logout. run. rewrite Hs. reflexivity. }
    rewrite Hrun. simpl.
    assert (Hgone : delete (App.requested_session_id ref) (sessions w)
                      !! App.requested_session_id ref = None) by apply lookup_delete_eq.
    split; [reflexivity|]. split; [exact Hgone|].
    intros amb'. apply Habsent. exact Hgone.
  - apply Habsent, Hs.
Qed.

(** The session id may come from the body or from the bearer header. *)
Example requested_session_id_sources :
  App.requested_session_id {| App.body_session_id := Some "s1"; App.authorization := Some "Bearer zz" |} = "s1"
  ∧ App.requested_session_id {| App.body_session_id := None; App.authorization := Some "Bearer s1" |} = "s1"
  ∧ App.requested_session_id {| App.body_session_id := Some ""; App.authorization := Some "s1" |} = "s1"
  ∧ App.requested_session_id {| App.body_session_id := None; App.authorization := None |} = "".
Proof. repeat split; vm_compute; reflexivity. Qed.

(** Logging out the live demo session twice: success, then the 400
    answer. *)
Example logout_twice :
  let ref := {| App.body_session_id := None; App.authorization := Some "Bearer s1" |} in
  fst (App.logout ref demo_ambient live_world)
  = Returned (App.jsonify (App.LogoutBody "Logged out successfully"))
  ∧ fst (App.logout ref demo_ambient (snd (App.logout ref demo_ambient live_world)))
    = Returned {| App.body := App.ErrorBody "Invalid session"; App.status := 400 |}
  ∧ map event_type (audit_log (snd (App.logout ref demo_ambient live_world)))
    = ["session_destroyed"].
Proof. repeat split; vm_compute; reflexivity. Qed.

(** ** Audit log round trip *)

Lemma events_from_entries amb k entries :
  map (fun e => (event_type e, details e)) (events_from amb k entries) = entries.
Proof.
  revert k. induction entries as [|[ty d] rest IH]; intros k; simpl.
  - reflexivity.
  - rewrite IH. reflexivity.
Qed.

Lemma events_from_length amb k entries :
  length (events_from amb k entries) = length entries.
Proof.
  revert k. induction entries as [|[ty d] rest IH]; intros k; simpl; [|rewrite IH]; reflexivity.
Qed.

Lemma append_all_run amb entries :
  ∀ w, ∃ w',
    append_all entries amb w = (Returned tt, w')
    ∧ audit_log w' = audit_log w ++ events_from amb (ticks w) entries
    ∧ sessions w' = sessions w
    ∧ security_policies w' = security_policies w.
Proof.
  induction entries as [|[ty d] rest IH]; intros w.
  - exists w. simpl. rewrite app_nil_r. repeat split; reflexivity.
  - destruct (IH (set_audit_log (fun log => log ++ [event_at amb w ty d]) (tick w)))
      as (w' & Hrun & Hlog & Hses & Hpol).
    exists w'. split.
    + simpl. unfold mbind, M_bind. rewrite log_security_event_appends. exact Hrun.
    + rewrite Hlog, Hses, Hpol. simpl. rewrite <- app_assoc. repeat split; reflexivity.
Qed.

Lemma slice_from_whole {A} (l : list A) :
  slice_from (- Z.of_nat (length l)) l = l.
Proof.
  unfold slice_from. destruct (Z.ltb_spec (- Z.of_nat (length l)) 0) as [H|H].
  - replace (Z.of_nat (length l) + - Z.of_nat (length l)) with 0 by lia. reflexivity.
  - replace (- Z.of_nat (length l)) with 0 by lia. reflexivity.
Qed.

(** C7. Starting from an empty audit log, after one append per entry of
    any list of [N] entries, [get_audit_events] with limit [N] and no type
    filter answers with exactly the [N] events built from those entries,
    in the order of the appends. *)
Theorem audit_round_trip (amb : Ambient) (w : World) (entries : list (string * PyVal)) :
  audit_log w = [] →
  ∃ w',
    append_all entries amb w = (Returned tt, w')
    ∧ App.get_audit_events (Some (Z.of_nat (length entries))) None amb w'
      = (Returned (App.jsonify (App.AuditBody (length entries) (length entries)
                                  (events_from amb (ticks w) entries))), w')
    ∧ map (fun e => (event_type e, details e)) (events_from amb (ticks w) entries)
      = entries.
Proof.
  intros Hempty.
  destruct (append_all_run amb entries w) as (w' & Hrun & Hlog & _).
  rewrite Hempty in Hlog. simpl in Hlog.
  exists w'. split; [exact Hrun|]. split; [|apply events_from_entries].
  assert (Hslice : slice_from (- Z.of_nat (length entries)) (events_from amb (ticks w) entries)
                   = events_from amb (ticks w) entries).
  { rewrite <- (events_from_length amb (ticks w) entries). apply slice_from_whole. }
  unfold App.get_audit_events. run. rewrite Hlog, Hslice, events_from_length.
  reflexivity.
Qed.

Lemma audit_round_trip_witness :
  audit_log init = []
  ∧ ∃ w',
      append_all [("login_failed", PyDict [("username", PyStr "alice")]);
                  ("threat_scan", PyNone)] demo_ambient init = (Returned tt, w')
      ∧ App.get_audit_events (Some 2) None demo_ambient w'
        = (Returned (App.jsonify (App.AuditBody 2 2
             (events_from demo_ambient 0
                [("login_failed", PyDict [("username", PyStr "alice")]);
                 ("threat_scan", PyNone)]))), w')
      ∧ map (fun e => (event_type e, details e))
          (events_from demo_ambient 0
             [("login_failed", PyDict [("username", PyStr "alice")]);
              ("threat_scan", PyNone)])
        = [("login_failed", PyDict [("username", PyStr "alice")]);
           ("threat_scan", PyNone)].
Proof.
  split; [reflexivity|].
  apply (audit_round_trip demo_ambient init
           [("login_failed", PyDict [("username", PyStr "alice")]);
            ("threat_scan", PyNone)]).
  reflexivity.
Defined.

(** ** Session creation and login *)

Lemma create_session_run amb w user perms :
  create_session user perms amb w
  = (Returned (session_at amb w user perms), created_world amb w user perms).
Proof. reflexivity. Qed.

Lemma created_world_lookup amb w user perms :
  sessions (created_world amb w user perms) !! session_id (session_at amb w user perms)
  = Some (session_at amb w user perms).
Proof. unfold created_world. simpl. apply lookup_insert_eq. Qed.

Lemma or_read_nonempty perms : or_read perms ≠ [].
Proof. destruct perms as [[|p ps]|]; simpl; discriminate. Qed.

(** C8. The session that [create_session] stores never has an empty
    permissions list: a caller's non-empty list is kept, and an omitted or
    empty list becomes [["read"]]. *)
Theorem create_session_permissions_nonempty
    (amb : Ambient) (w : World) (user : string) (perms : option (list string)) :
  ∃ s w',
    create_session user perms amb w = (Returned s, w')
    ∧ sessions w' !! session_id s = Some s
    ∧ permissions s ≠ []
    ∧ permissions s = match perms with
                      | Some (p :: ps) => p :: ps
                      | Some [] | None => ["read"]
                      end.
Proof.
  exists (session_at amb w user perms), (created_world amb w user perms).
  split; [apply create_session_run|]. split; [apply created_world_lookup|].
  split; [apply or_read_nonempty|].
  destruct perms as [[|p ps]|]; reflexivity.
Qed.

Example create_session_defaults :
  permissions (session_at demo_ambient init "alice" None) = ["read"]
  ∧ permissions (session_at demo_ambient init "alice" (Some [])) = ["read"]
  ∧ permissions (session_at demo_ambient init "alice" (Some ["write"])) = ["write"].
Proof. repeat split; reflexivity. Qed.

(** C9. For every user name, a login whose secret is at least as long as
    the policy minimum succeeds: it creates and stores a session for that
    user and answers with it. Nothing but the length of the secret is
    looked at, so any two secrets of sufficient length give the same
    result. *)
Theorem login_accepts_any_long_secret
    (amb : Ambient) (w : World) (user secret : string)
    (perms : option (option (list string))) :
  password_min_length (security_policies w) <= len secret →
  ∃ s w',
    App.login (Some (credentials user secret perms)) amb w
    = (Returned (App.jsonify (App.LoginBody (session_id s) (expires_at s) (permissions s))),
       w')
    ∧ create_session user (default (Some ["read"; "write"]) perms) amb w = (Returned s, w')
    ∧ sessions w' !! session_id s = Some s
    ∧ user_id s = user
    ∧ ∀ secret',
        password_min_length (security_policies w) <= len secret' →
        App.login (Some (credentials user secret' perms)) amb w
        = App.login (Some (credentials user secret perms)) amb w.
Proof.
  intros Hlong.
  assert (Hrun : ∀ pw, password_min_length (security_policies w) <= len pw →
            App.login (Some (credentials user pw perms)) amb w
            = (Returned (App.jsonify
                 (App.LoginBody
                    (session_id (session_at amb w user (default (Some ["read"; "write"]) perms)))
                    (expires_at (session_at amb w user (default (Some ["read"; "write"]) perms)))
                    (permissions (session_at amb w user (default (Some ["read"; "write"]) perms))))),
               created_world amb w user (default (Some ["read"; "write"]) perms))).
  { intros pw Hpw. unfold App.login, credentials. simpl. run.
    assert (E : (len pw >=? password_min_length (security_policies w)) = true)
      by (rewrite Z.geb_leb; apply Z.leb_le; exact Hpw).
    rewrite E. reflexivity. }
  eexists _, _. split; [apply (Hrun secret Hlong)|].
  split; [apply create_session_run|]. split; [apply created_world_lookup|].
  split; [reflexivity|].
  intros secret' Hlong'. rewrite (Hrun secret' Hlong'), (Hrun secret Hlong). reflexivity.
Qed.

Lemma login_accepts_any_long_secret_witness :
  password_min_length (security_policies init) <= len "12345678"
  ∧ ∃ s w',
      App.login (Some (credentials "alice" "12345678" None)) demo_ambient init
      = (Returned (App.jsonify (App.LoginBody (session_id s) (expires_at s) (permissions s))),
         w')
      ∧ create_session "alice" (default (Some ["read"; "write"]) None) demo_ambient init
        = (Returned s, w')
      ∧ sessions w' !! session_id s = Some s
      ∧ user_id s = "alice"
      ∧ ∀ secret',
          password_min_length (security_policies init) <= len secret' →
          App.login (Some (credentials "alice" secret' None)) demo_ambient init
          = App.login (Some (credentials "alice" "12345678" None)) demo_ambient init.
Proof.
  split; [vm_compute; discriminate|].
  apply (login_accepts_any_long_secret demo_ambient init "alice" "12345678" None).
  vm_compute; discriminate.
Defined.

(** The first login on a fresh service, spelled out. *)
Example first_login :
  fst (App.login (Some (credentials "mallory" "not-the-password" None)) demo_ambient init)
  = Returned (App.jsonify (App.LoginBody "token-0" 3600001001 ["read"; "write"])).
Proof. vm_compute. reflexivity. Qed.

(** ** An invariant of the session table *)

Section SessionTable.

Variable amb : Ambient.

Lemma well_formed_insert m s :
  well_formed m → permissions s ≠ [] → well_formed (<[session_id s := s]> m).
Proof.
  intros Hm Hs sid s'. rewrite lookup_insert. case_decide as Hid.
  - intros [= <-]. split; [exact Hid | exact Hs].
  - apply Hm.
Qed.

Lemma well_formed_delete m sid : well_formed m → well_formed (delete sid m).
Proof.
  intros Hm sid' s'. rewrite lookup_delete. case_decide; [discriminate | apply Hm].
Qed.

Lemma well_formed_touch m sid s t :
  well_formed m → m !! sid = Some s → well_formed (<[sid := touch t s]> m).
Proof.
  intros Hm Hs. destruct (Hm sid s Hs) as [Hid Hperm].
  replace sid with (session_id (touch t s)) at 1 by exact Hid.
  apply well_formed_insert; assumption.
Qed.

Lemma validate_session_well_formed w sid :
  well_formed (sessions w) → well_formed (sessions (snd (validate_session sid amb w))).
Proof.
  intros Hw. destruct (sessions w !! sid) as [s|] eqn:Hs.
  - destruct (clock amb (ticks w) >? expires_at s) eqn:Ht.
    + rewrite (validate_session_expired _ _ _ _ Hs Ht). simpl.
      apply well_formed_delete, Hw.
    + rewrite (validate_session_live _ _ _ _ Hs Ht). simpl.
      apply well_formed_touch; assumption.
  - rewrite (validate_session_absent _ _ _ Hs). exact Hw.
Qed.

Lemma serve_well_formed c w :
  well_formed (sessions w) → well_formed (sessions (snd (serve c amb w))).
Proof.
  intros Hw. destruct c as [data|ref|ref|json|limit type]; simpl.
  - unfold App.login.
    destruct data as [[[user|] [secret|] perms]|]; simpl; try exact Hw.
    run. destruct (len secret >=? _); simpl; [|exact Hw].
    apply (well_formed_insert _ (session_at amb w user (default (Some ["read"; "write"]) perms)));
      [exact Hw | apply or_read_nonempty].
  - unfold App.logout. run.
    destruct (sessions w !! App.requested_session_id ref); simpl; [|exact Hw].
    apply well_formed_delete, Hw.
  - unfold App.validate_session. run.
    pose proof (validate_session_well_formed w (App.requested_session_id ref) Hw) as H.
    destruct (validate_session _ amb w) as [[s|[msg]] w']; simpl in *; exact H.
  - exact Hw.
  - exact Hw.
Qed.

End SessionTable.

(** X14. In every state the service can reach through requests of the
    shape the handlers are given here (the [permissions] of a login being
    a list of strings, [null] or absent), each stored session sits under
    its own id and has at least one permission. *)
Theorem reachable_sessions_well_formed (w : World) :
  reachable w → well_formed (sessions w).
Proof.
  induction 1 as [|amb c w _ IH].
  - intros sid s H. simpl in H. rewrite lookup_empty in H. discriminate H.
  - apply serve_well_formed, IH.
Qed.

Lemma reachable_sessions_well_formed_witness :
  ∃ s, sessions (snd (serve (PostLogin (Some (credentials "alice" "12345678" (Some (Some [])))))
                        demo_ambient init)) !! "token-0" = Some s
       ∧ session_id s = "token-0" ∧ permissions s ≠ [].
Proof.
  eexists. split; [vm_compute; reflexivity|].
  apply (reachable_sessions_well_formed _
           (reachable_serve demo_ambient
              (PostLogin (Some (credentials "alice" "12345678" (Some (Some [])))))
              init reachable_init)).
  vm_compute. reflexivity.
Defined.

(** * Further properties of the service

    A handler's body argument is what [request.get_json()] returns, so a
    body of [None] is the JSON document [null]. A request that carries no
    JSON document at all is turned away by Flask inside [get_json], before
    any line of the handler that follows it runs; such requests are not
    among the requests these properties speak of. *)

(** ** Permission checks *)

(** X1. [check_permissions] never raises. It answers [True] exactly when the
    session is stored, its deadline has not passed, and its permissions
    hold the required one or "admin"; it never writes to the audit log. *)
Theorem check_permissions_decides (amb : Ambient) (w : World) (sid required : string) :
  ∃ b w',
    check_permissions sid required amb w = (Returned b, w')
    ∧ (b = true
       ↔ ∃ s, sessions w !! sid = Some s
              ∧ clock amb (ticks w) <= expires_at s
              ∧ (required ∈ permissions s ∨ "admin" ∈ permissions s))
    ∧ audit_log w' = audit_log w.
Proof.
  unfold check_permissions, try_except.
  destruct (sessions w !! sid) as [s|] eqn:Hs.
  - destruct (clock amb (ticks w) >? expires_at s) eqn:Ht.
    + unfold mbind, M_bind. rewrite (validate_session_expired _ _ _ _ Hs Ht).
      eexists _, _. split; [reflexivity|]. split; [|reflexivity].
      split; [discriminate|]. intros (s' & [= <-] & Hlive & _).
      rewrite Z.gtb_ltb in Ht. apply Z.ltb_lt in Ht. lia.
    + unfold mbind, M_bind. rewrite (validate_session_live _ _ _ _ Hs Ht).
      eexists _, _. split; [reflexivity|]. split; [|reflexivity].
      simpl. rewrite orb_true_iff, !bool_decide_eq_true.
      rewrite Z.gtb_ltb in Ht. apply Z.ltb_ge in Ht.
      split.
      * intros Hp. exists s. auto.
      * intros (s' & [= <-] & _ & Hp). exact Hp.
  - unfold mbind, M_bind. rewrite (validate_session_absent _ _ _ Hs).
    eexists _, _. split; [reflexivity|]. split; [|reflexivity].
    split; [discriminate|]. intros (s' & [=] & _).
Qed.

(** X2. A permission check is not read-only: on a stored session it either
    deletes the entry (deadline passed) or leaves in the store a session
    whose [last_activity] is the next clock reading and whose id, user,
    permissions and deadline are those it had. *)
Theorem check_permissions_touches_the_store
    (amb : Ambient) (w : World) (sid required : string) (s : Session) :
  sessions w !! sid = Some s →
  if clock amb (ticks w) >? expires_at s
  then sessions (snd (check_permissions sid required amb w)) !! sid = None
  else ∃ s',
         sessions (snd (check_permissions sid required amb w)) !! sid = Some s'
         ∧ last_activity s' = clock amb (S (ticks w))
         ∧ session_id s' = session_id s
         ∧ user_id s' = user_id s
         ∧ permissions s' = permissions s
         ∧ expires_at s' = expires_at s.
Proof.
  intros Hs. unfold check_permissions, try_except, mbind, M_bind.
  destruct (clock amb (ticks w) >? expires_at s) eqn:Ht.
  - rewrite (validate_session_expired _ _ _ _ Hs Ht). simpl. apply lookup_delete_eq.
  - rewrite (validate_session_live _ _ _ _ Hs Ht). simpl.
    exists (touch (clock amb (S (ticks w))) s).
    split; [apply lookup_insert_eq|]. repeat split; reflexivity.
Qed.

Lemma check_permissions_touches_the_store_witness :
  sessions expired_world !! "s1" = Some (demo_session 500)
  ∧ sessions (snd (check_permissions "s1" "read" demo_ambient expired_world)) !! "s1" = None
  ∧ sessions live_world !! "s1" = Some (demo_session 5000)
  ∧ ∃ s',
      sessions (snd (check_permissions "s1" "read" demo_ambient live_world)) !! "s1" = Some s'
      ∧ last_activity s' = 1001
      ∧ session_id s' = "s1"
      ∧ user_id s' = "alice"
      ∧ permissions s' = ["read"]
      ∧ expires_at s' = 5000.
Proof.
  split; [reflexivity|]. split.
  - exact (check_permissions_touches_the_store demo_ambient expired_world "s1" "read"
             (demo_session 500) eq_refl).
  - split; [reflexivity|].
    exact (check_permissions_touches_the_store demo_ambient live_world "s1" "read"
             (demo_session 5000) eq_refl).
Defined.

(** ** Creating, validating and destroying sessions *)

(** X3. Validating the id that [create_session] has just handed out succeeds
    as long as the clock has not passed the new deadline, and returns the
    same user, permissions and deadline. *)
Theorem validate_after_create
    (amb amb' : Ambient) (w w1 : World) (user : string) (perms : option (list string))
    (s : Session) :
  create_session user perms amb w = (Returned s, w1) →
  clock amb' (ticks w1) <= expires_at s →
  ∃ s' w2,
    validate_session (session_id s) amb' w1 = (Returned s', w2)
    ∧ user_id s' = user
    ∧ permissions s' = permissions s
    ∧ expires_at s' = expires_at s
    ∧ sessions w2 !! session_id s = Some s'.
Proof.
  rewrite create_session_run. intros [= <- <-] Hlive.
  assert (Ht : (clock amb' (ticks (created_world amb w user perms))
                >? expires_at (session_at amb w user perms)) = false)
    by (rewrite Z.gtb_ltb; apply Z.ltb_ge; exact Hlive).
  eexists _, _.
  split; [apply (validate_session_live _ _ _ _ (created_world_lookup amb w user perms) Ht)|].
  simpl. repeat (split; [reflexivity|]). apply lookup_insert_eq.
Qed.

Lemma validate_after_create_witness :
  ∃ s w1,
    create_session "alice" (Some ["write"]) demo_ambient init = (Returned s, w1)
    ∧ clock demo_ambient (ticks w1) <= expires_at s
    ∧ ∃ s' w2,
        validate_session (session_id s) demo_ambient w1 = (Returned s', w2)
        ∧ user_id s' = "alice"
        ∧ permissions s' = permissions s
        ∧ expires_at s' = expires_at s
        ∧ sessions w2 !! session_id s = Some s'.
Proof.
  exists (session_at demo_ambient init "alice" (Some ["write"])),
         (created_world demo_ambient init "alice" (Some ["write"])).
  split; [reflexivity|]. split; [vm_compute; discriminate|].
  apply (validate_after_create demo_ambient demo_ambient init _ "alice" (Some ["write"]));
    [reflexivity | vm_compute; discriminate].
Defined.

(** X4. [create_session] stores the new session under the next token of the
    random source without looking whether that id is taken: every other
    entry is kept, a fresh id adds one entry, and an id that is already
    stored has its session replaced by the new one. *)
Theorem create_session_store_effect
    (amb : Ambient) (w w1 : World) (user : string) (perms : option (list string))
    (s : Session) :
  create_session user perms amb w = (Returned s, w1) →
  session_id s = entropy amb (draws w) 32
  ∧ sessions w1 !! session_id s = Some s
  ∧ (∀ other, other ≠ session_id s → sessions w1 !! other = sessions w !! other)
  ∧ size (sessions w1)
    = match sessions w !! session_id s with
      | Some _ => size (sessions w)
      | None => S (size (sessions w))
      end.
Proof.
  rewrite create_session_run. intros [= <- <-].
  split; [reflexivity|]. split; [apply created_world_lookup|]. split.
  - intros other Hne. unfold created_world. simpl. apply lookup_insert_ne.
    intros E. apply Hne. symmetry. exact E.
  - unfold created_world. simpl. rewrite map_size_insert.
    destruct (sessions w !! entropy amb (draws w) 32); reflexivity.
Qed.

Lemma create_session_store_effect_witness :
  ∃ s w1,
    create_session "mallory" None repeating_ambient live_world = (Returned s, w1)
    ∧ session_id s = "s1"
    ∧ user_id <$> sessions live_world !! "s1" = Some "alice"
    ∧ user_id <$> sessions w1 !! "s1" = Some "mallory"
    ∧ size (sessions w1) = size (sessions live_world).
Proof.
  eexists _, _. split; [apply create_session_run|].
  destruct (create_session_store_effect repeating_ambient live_world _ "mallory" None _
              (create_session_run repeating_ambient live_world "mallory" None))
    as (Hid & Hnew & _ & Hsize).
  split; [exact Hid|]. split; [reflexivity|]. split; [vm_compute; reflexivity|].
  exact Hsize.
Defined.

(** ** Login *)

Lemma login_long_run amb w user secret perms :
  password_min_length (security_policies w) <= len secret →
  App.login (Some (credentials user secret perms)) amb w
  = (Returned (App.jsonify
       (App.LoginBody
          (session_id (session_at amb w user (default (Some ["read"; "write"]) perms)))
          (expires_at (session_at amb w user (default (Some ["read"; "write"]) perms)))
          (permissions (session_at amb w user (default (Some ["read"; "write"]) perms))))),
     created_world amb w user (default (Some ["read"; "write"]) perms)).
Proof.
  intros Hlong. unfold App.login, credentials. simpl. run.
  assert (E : (len secret >=? password_min_length (security_policies w)) = true)
    by (rewrite Z.geb_leb; apply Z.leb_le; exact Hlong).
  rewrite E. reflexivity.
Qed.

Lemma login_short_run amb w user secret perms :
  len secret < password_min_length (security_policies w) →
  App.login (Some (credentials user secret perms)) amb w
  = (Returned {| App.body := App.ErrorBody "Authentication failed"; App.status := 401 |},
     set_audit_log
       (fun log => log ++ [event_at amb w "login_failed"
                             (PyDict [("username", PyStr user);
                                      ("reason", PyStr "weak_password")])])
       (tick w)).
Proof.
  intros Hshort. unfold App.login, credentials. simpl. run.
  assert (E : (len secret >=? password_min_length (security_policies w)) = false)
    by (rewrite Z.geb_leb; apply Z.leb_gt; exact Hshort).
  rewrite E. reflexivity.
Qed.

(** X5. A login request whose JSON body is [null], or is an object that
    lacks the [username] key or the [password] key, is answered 400
    "Missing username or password" and leaves the service untouched: no
    session, and no audit event either. *)
Theorem login_missing_field (amb : Ambient) (w : World) (data : option App.Credentials) :
  (∀ d, data = Some d → App.username d = None ∨ App.password d = None) →
  App.login data amb w
  = (Returned {| App.body := App.ErrorBody "Missing username or password";
                 App.status := 400 |}, w).
Proof.
  intros Hmiss. destruct data as [d|]; [|reflexivity].
  unfold App.login. destruct (Hmiss d eq_refl) as [-> | H].
  - reflexivity.
  - rewrite H. destruct (App.username d); reflexivity.
Qed.

Lemma login_missing_field_witness :
  App.login (Some {| App.username := Some "alice"; App.password := None;
                     App.requested_permissions := None |}) demo_ambient init
  = (Returned {| App.body := App.ErrorBody "Missing username or password";
                 App.status := 400 |}, init).
Proof.
  apply (login_missing_field demo_ambient init).
  intros d [= <-]. right. reflexivity.
Defined.

(** X6. A rejected login does not depend on what the secret is, only on its
    being too short: the answer, the audit event and the whole service
    state are the same for any two such secrets, so the secret is written
    nowhere. *)
Theorem rejected_login_ignores_the_secret
    (amb : Ambient) (w : World) (user secret secret' : string)
    (perms : option (option (list string))) :
  len secret < password_min_length (security_policies w) →
  len secret' < password_min_length (security_policies w) →
  App.login (Some (credentials user secret perms)) amb w
  = App.login (Some (credentials user secret' perms)) amb w
  ∧ sessions (snd (App.login (Some (credentials user secret perms)) amb w)) = sessions w.
Proof.
  intros H H'. rewrite (login_short_run _ _ _ _ _ H), (login_short_run _ _ _ _ _ H').
  split; reflexivity.
Qed.

Lemma rejected_login_ignores_the_secret_witness :
  App.login (Some (credentials "alice" "short" None)) demo_ambient init
  = App.login (Some (credentials "alice" "hunter2" None)) demo_ambient init
  ∧ sessions (snd (App.login (Some (credentials "alice" "short" None)) demo_ambient init))
    = sessions init.
Proof.
  apply (rejected_login_ignores_the_secret demo_ambient init "alice" "short" "hunter2" None);
    vm_compute; reflexivity.
Defined.

(** X7. The permissions of a session are whatever the login request asks
    for: a missing [permissions] key gives read and write, [null] or an
    empty list gives read, and any other list is granted as it is. *)
Theorem login_grants_what_is_asked
    (amb : Ambient) (w : World) (user secret : string)
    (perms : option (option (list string))) :
  password_min_length (security_policies w) <= len secret →
  ∃ sid deadline w',
    App.login (Some (credentials user secret perms)) amb w
    = (Returned (App.jsonify
         (App.LoginBody sid deadline
            match perms with
            | None => ["read"; "write"]
            | Some None | Some (Some []) => ["read"]
            | Some (Some (p :: ps)) => p :: ps
            end)), w')
    ∧ permissions <$> sessions w' !! sid
      = Some match perms with
             | None => ["read"; "write"]
             | Some None | Some (Some []) => ["read"]
             | Some (Some (p :: ps)) => p :: ps
             end.
Proof.
  intros Hlong. eexists _, _, _. rewrite (login_long_run _ _ _ _ _ Hlong). split.
  - destruct perms as [[[|p ps]|]|]; reflexivity.
  - rewrite created_world_lookup. destruct perms as [[[|p ps]|]|]; reflexivity.
Qed.

Lemma login_grants_what_is_asked_witness :
  ∃ sid deadline w',
    App.login (Some (credentials "mallory" "12345678" (Some (Some ["admin"]))))
      demo_ambient init
    = (Returned (App.jsonify (App.LoginBody sid deadline ["admin"])), w')
    ∧ permissions <$> sessions w' !! sid = Some ["admin"].
Proof.
  apply (login_grants_what_is_asked demo_ambient init "mallory" "12345678"
           (Some (Some ["admin"]))).
  vm_compute; discriminate.
Defined.

(** X8. Since a login grants the permissions it is asked for, anyone with a
    long enough secret can ask for "admin", and the session then passes
    every permission check made before its deadline. *)
Theorem self_granted_admin_passes_every_check
    (amb amb' : Ambient) (w : World) (user secret required : string) :
  password_min_length (security_policies w) <= len secret →
  clock amb' (ticks (snd (App.login (Some (credentials user secret (Some (Some ["admin"]))))
                            amb w)))
  <= clock amb (S (ticks w)) + seconds (session_timeout (security_policies w)) →
  ∃ sid deadline w',
    App.login (Some (credentials user secret (Some (Some ["admin"])))) amb w
    = (Returned (App.jsonify (App.LoginBody sid deadline ["admin"])), w')
    ∧ fst (check_permissions sid required amb' w') = Returned true.
Proof.
  intros Hlong. rewrite (login_long_run _ _ _ _ _ Hlong). simpl snd. intros Hlive.
  eexists _, _, _. split; [reflexivity|].
  unfold check_permissions, try_except, mbind, M_bind.
  assert (Ht : (clock amb' (ticks (created_world amb w user (Some ["admin"])))
                >? expires_at (session_at amb w user (Some ["admin"]))) = false)
    by (rewrite Z.gtb_ltb; apply Z.ltb_ge; exact Hlive).
  simpl default.
  rewrite (validate_session_live _ _ _ _ (created_world_lookup amb w user (Some ["admin"])) Ht).
  simpl. f_equal. apply orb_true_iff. right. reflexivity.
Qed.

Lemma self_granted_admin_passes_every_check_witness :
  ∃ sid deadline w',
    App.login (Some (credentials "mallory" "12345678" (Some (Some ["admin"]))))
      demo_ambient init
    = (Returned (App.jsonify (App.LoginBody sid deadline ["admin"])), w')
    ∧ fst (check_permissions sid "delete_everything" demo_ambient w') = Returned true.
Proof.
  apply (self_granted_admin_passes_every_check demo_ambient demo_ambient init
           "mallory" "12345678" "delete_everything");
    vm_compute; discriminate.
Defined.

Lemma logout_stored_run amb w ref s :
  sessions w !! App.requested_session_id ref = Some s →
  App.logout ref amb w
  = (Returned (App.jsonify (App.LogoutBody "Logged out successfully")),
     set_audit_log
       (fun log => log ++ [event_at amb (set_sessions (delete (App.requested_session_id ref)) w)
                             "session_destroyed"
                             (PyDict [("session_id", PyStr (App.requested_session_id ref));
                                      ("user_id", PyStr (user_id s))])])
       (tick (set_sessions (delete (App.requested_session_id ref)) w))).
Proof. intros Hs. unfold App.logout. run. rewrite Hs. reflexivity. Qed.

Lemma requested_session_id_body sid :
  App.requested_session_id {| App.body_session_id := Some sid; App.authorization := None |}
  = sid.
Proof.
  unfold App.requested_session_id. simpl.
  destruct (String.eqb_spec sid "") as [->|]; reflexivity.
Qed.

(** X9. Logging in under a fresh token and logging that token out again
    restores the session table; the audit log has gained a
    [session_created] and a [session_destroyed] event. *)
Theorem login_then_logout_restores_sessions
    (amb amb' : Ambient) (w : World) (user secret : string)
    (perms : option (option (list string))) :
  password_min_length (security_policies w) <= len secret →
  sessions w !! entropy amb (draws w) 32 = None →
  ∃ r w1 w2,
    App.login (Some (credentials user secret perms)) amb w = (Returned r, w1)
    ∧ App.logout {| App.body_session_id := Some (entropy amb (draws w) 32);
                    App.authorization := None |} amb' w1
      = (Returned (App.jsonify (App.LogoutBody "Logged out successfully")), w2)
    ∧ sessions w2 = sessions w
    ∧ map event_type (audit_log w2)
      = map event_type (audit_log w) ++ ["session_created"; "session_destroyed"].
Proof.
  intros Hlong Hfresh. rewrite (login_long_run _ _ _ _ _ Hlong).
  eexists _, _, _. split; [reflexivity|].
  rewrite (logout_stored_run amb' _ _
             (session_at amb w user (default (Some ["read"; "write"]) perms)));
    [|rewrite requested_session_id_body; apply created_world_lookup].
  rewrite requested_session_id_body.
  split; [reflexivity|]. simpl. split.
  - rewrite delete_insert_eq. apply delete_id. exact Hfresh.
  - rewrite !map_app. simpl. rewrite <- app_assoc. reflexivity.
Qed.

Lemma login_then_logout_restores_sessions_witness :
  ∃ r w1 w2,
    App.login (Some (credentials "alice" "12345678" None)) demo_ambient live_world
    = (Returned r, w1)
    ∧ App.logout {| App.body_session_id := Some (entropy demo_ambient (draws live_world) 32);
                    App.authorization := None |} demo_ambient w1
      = (Returned (App.jsonify (App.LogoutBody "Logged out successfully")), w2)
    ∧ sessions w2 = sessions live_world
    ∧ map event_type (audit_log w2)
      = map event_type (audit_log live_world) ++ ["session_created"; "session_destroyed"].
Proof.
  apply (login_then_logout_restores_sessions demo_ambient demo_ambient live_world
           "alice" "12345678" None);
    [vm_compute; discriminate | vm_compute; reflexivity].
Defined.

(** ** What a request can do to the service *)

(** The common shape of every request: it is answered, it appends at most
    one event of a known type behind the events that are there, and it
    keeps the policies. *)
Lemma serve_effect (amb : Ambient) (c : Call) (w : World) :
  ∃ r w' new,
    serve c amb w = (Returned r, w')
    ∧ audit_log w' = audit_log w ++ new
    ∧ (length new <= 1)%nat
    ∧ Forall (fun e => event_type e ∈ known_event_types) new
    ∧ security_policies w' = security_policies w.
Proof.
  assert (Hsame : ∀ r : App.Response, ∃ r' w' new,
            (Returned r, w) = (Returned r', w')
            ∧ audit_log w' = audit_log w ++ new
            ∧ (length new <= 1)%nat
            ∧ Forall (fun e => event_type e ∈ known_event_types) new
            ∧ security_policies w' = security_policies w).
  { intros r. exists r, w, []. rewrite app_nil_r. simpl. repeat split; auto. }
  assert (Hone : ∀ (r : App.Response) w0 ty d,
            audit_log w0 = audit_log w → security_policies w0 = security_policies w →
            ty ∈ known_event_types →
            ∃ r' w' new,
              (Returned r, set_audit_log (fun log => log ++ [event_at amb w0 ty d]) (tick w0))
              = (Returned r', w')
              ∧ audit_log w' = audit_log w ++ new
              ∧ (length new <= 1)%nat
              ∧ Forall (fun e => event_type e ∈ known_event_types) new
              ∧ security_policies w' = security_policies w).
  { intros r w0 ty d Hlog Hpol Hty. eexists _, _, [_]. split; [reflexivity|].
    simpl. rewrite Hlog. split; [reflexivity|]. split; [lia|]. split; [|exact Hpol].
    constructor; [exact Hty | constructor]. }
  destruct c as [data|ref|ref|json|limit type]; simpl.
  - unfold App.login.
    destruct data as [[[user|] [secret|] perms]|]; simpl; try apply Hsame.
    run. destruct (len secret >=? _).
    + apply (Hone _ (set_sessions _ (tick (tick (tick (draw w)))))); try reflexivity.
      unfold known_event_types. set_solver.
    + apply (Hone _ w); try reflexivity. unfold known_event_types. set_solver.
  - unfold App.logout. run.
    destruct (sessions w !! App.requested_session_id ref); simpl; [|apply Hsame].
    apply (Hone _ (set_sessions _ w)); try reflexivity.
    unfold known_event_types. set_solver.
  - unfold App.validate_session, try_except, mbind, M_bind.
    destruct (sessions w !! App.requested_session_id ref) as [s|] eqn:Hs.
    + destruct (clock amb (ticks w) >? expires_at s) eqn:Ht.
      * rewrite (validate_session_expired _ _ _ _ Hs Ht).
        eexists _, _, []. rewrite app_nil_r. simpl. repeat split; auto.
      * rewrite (validate_session_live _ _ _ _ Hs Ht).
        eexists _, _, []. rewrite app_nil_r. simpl. repeat split; auto.
    + rewrite (validate_session_absent _ _ _ Hs). apply Hsame.
  - apply (Hone _ w); try reflexivity. unfold known_event_types. set_solver.
  - unfold App.get_audit_events. run. apply Hsame.
Qed.

(** X10. No request makes a handler raise: the [ValueError]s of
    [validate_session] are all caught and turned into answers. *)
Theorem serve_never_raises (amb : Ambient) (c : Call) (w : World) :
  ∃ r, fst (serve c amb w) = Returned r.
Proof.
  destruct (serve_effect amb c w) as (r & w' & new & -> & _). exists r. reflexivity.
Qed.

(** X11. The audit log is append-only: a request leaves every event that is
    there in place and adds at most one behind them. *)
Theorem serve_appends_at_most_one_event (amb : Ambient) (c : Call) (w : World) :
  ∃ new,
    audit_log (snd (serve c amb w)) = audit_log w ++ new
    ∧ (length new <= 1)%nat.
Proof.
  destruct (serve_effect amb c w) as (r & w' & new & -> & Hlog & Hlen & _).
  exists new. split; assumption.
Qed.

(** X12. No sequence of requests changes the policies: in every reachable
    state they are the ones set at construction, minimum secret length 8
    and session timeout 3600 seconds among them. *)
Theorem reachable_policies_are_initial (w : World) :
  reachable w →
  security_policies w = security_policies init
  ∧ DataRoutes.get_security_policies w
    = DataRoutes.Reply (DataRoutes.PoliciesResult (security_policies init)) 200.
Proof.
  intros Hw.
  assert (E : security_policies w = security_policies init).
  { induction Hw as [|amb c w _ IH]; [reflexivity|].
    destruct (serve_effect amb c w) as (r & w' & new & -> & _ & _ & _ & Hpol).
    simpl. rewrite Hpol. exact IH. }
  split; [exact E|]. unfold DataRoutes.get_security_policies. rewrite E. reflexivity.
Qed.

(** X13. In every reachable state the audit log holds only events of the four
    types [session_created], [session_destroyed], [login_failed] and
    [threat_scan]; in particular no request to validate a session, whether
    it succeeds or fails, is ever on record. *)
Theorem reachable_audit_event_types (w : World) :
  reachable w →
  Forall (fun e => event_type e ∈ known_event_types) (audit_log w).
Proof.
  induction 1 as [|amb c w _ IH]; [constructor|].
  destruct (serve_effect amb c w) as (r & w' & new & -> & Hlog & _ & Hty & _).
  simpl. rewrite Hlog. apply Forall_app. split; assumption.
Qed.

(** ** Reading the audit log *)

Lemma get_audit_events_run amb w limit type :
  App.get_audit_events limit type amb w
  = (Returned (App.jsonify
       (App.AuditBody (length (audit_log w)) (length (selected_events (audit_log w) type))
          (slice_from (- default 100 limit) (selected_events (audit_log w) type)))), w).
Proof. reflexivity. Qed.

Lemma slice_from_is_a_suffix {A} (start : Z) (l : list A) :
  ∃ older, l = older ++ slice_from start l.
Proof.
  unfold slice_from. destruct (start <? 0).
  - eexists. symmetry. apply take_drop.
  - eexists. symmetry. apply take_drop.
Qed.

Lemma slice_from_last {A} (k : Z) (l : list A) :
  0 < k → length (slice_from (- k) l) = Nat.min (Z.to_nat k) (length l).
Proof.
  intros Hk. unfold slice_from.
  destruct (Z.ltb_spec (- k) 0) as [_|H]; [|lia].
  rewrite length_drop. lia.
Qed.

(** X15. With a positive limit (100 when none is given) a query answers with
    the most recent events of its selection: the last [limit] of them, or
    all if there are fewer, in the order of the log. The query changes
    nothing. *)
Theorem get_audit_events_most_recent
    (amb : Ambient) (w : World) (limit : option Z) (type : option string) :
  0 < default 100 limit →
  ∃ older events,
    App.get_audit_events limit type amb w
    = (Returned (App.jsonify
         (App.AuditBody (length (audit_log w)) (length (selected_events (audit_log w) type))
            events)), w)
    ∧ selected_events (audit_log w) type = older ++ events
    ∧ length events
      = Nat.min (Z.to_nat (default 100 limit)) (length (selected_events (audit_log w) type)).
Proof.
  intros Hpos. rewrite get_audit_events_run.
  destruct (slice_from_is_a_suffix (- default 100 limit) (selected_events (audit_log w) type))
    as [older Holder].
  exists older, (slice_from (- default 100 limit) (selected_events (audit_log w) type)).
  split; [reflexivity|]. split; [exact Holder|]. apply slice_from_last, Hpos.
Qed.

(** X16. A limit of zero or below does not give an empty page. Zero gives the
    whole selection, and a negative limit [-k] gives the selection without
    its [k] oldest events. *)
Theorem get_audit_events_nonpositive_limit
    (amb : Ambient) (w : World) (limit : Z) (type : option string) :
  limit <= 0 →
  App.get_audit_events (Some limit) type amb w
  = (Returned (App.jsonify
       (App.AuditBody (length (audit_log w)) (length (selected_events (audit_log w) type))
          (drop (Z.to_nat (- limit)) (selected_events (audit_log w) type)))), w).
Proof.
  intros Hle. rewrite get_audit_events_run. simpl default. unfold slice_from.
  destruct (Z.ltb_spec (- limit) 0) as [H|_]; [lia | reflexivity].
Qed.

(** X17. With a non-empty type, a query answers only with events of that
    type, all of them taken from the audit log, while [total_events]
    still counts the whole log; an empty type selects like no type at
    all. *)
Theorem get_audit_events_by_type
    (amb : Ambient) (w : World) (limit : option Z) (ty : string) :
  ty ≠ "" →
  ∃ filtered events,
    App.get_audit_events limit (Some ty) amb w
    = (Returned (App.jsonify (App.AuditBody (length (audit_log w)) filtered events)), w)
    ∧ Forall (fun e => event_type e = ty ∧ e ∈ audit_log w) events
    ∧ App.get_audit_events limit (Some "") amb w = App.get_audit_events limit None amb w.
Proof.
  intros Hty. rewrite get_audit_events_run. eexists _, _. split; [reflexivity|].
  split; [|reflexivity].
  simpl. destruct (String.eqb_spec ty "") as [E|_]; [contradiction|].
  destruct (slice_from_is_a_suffix (- default 100 limit)
              (filter (fun e => event_type e = ty) (audit_log w))) as [older Holder].
  apply Forall_forall. intros e He.
  assert (Hin : e ∈ filter (fun e => event_type e = ty) (audit_log w))
    by (rewrite Holder; apply elem_of_app; right; exact He).
  apply list_elem_of_filter in Hin. exact Hin.
Qed.

Lemma get_audit_events_most_recent_witness :
  ∃ older events,
    App.get_audit_events (Some 2) None demo_ambient logged_world
    = (Returned (App.jsonify
         (App.AuditBody (length (audit_log logged_world))
            (length (selected_events (audit_log logged_world) None)) events)),
       logged_world)
    ∧ selected_events (audit_log logged_world) None = older ++ events
    ∧ length events
      = Nat.min (Z.to_nat (default 100 (Some 2)))
          (length (selected_events (audit_log logged_world) None)).
Proof.
  apply (get_audit_events_most_recent demo_ambient logged_world (Some 2) None).
  reflexivity.
Defined.

Lemma get_audit_events_nonpositive_limit_witness :
  App.get_audit_events (Some 0) None demo_ambient logged_world
  = (Returned (App.jsonify (App.AuditBody 3 3 (audit_log logged_world))), logged_world).
Proof.
  apply (get_audit_events_nonpositive_limit demo_ambient logged_world 0 None). reflexivity.
Defined.

Lemma get_audit_events_by_type_witness :
  ∃ filtered events,
    App.get_audit_events None (Some "login_failed") demo_ambient logged_world
    = (Returned (App.jsonify
         (App.AuditBody (length (audit_log logged_world)) filtered events)), logged_world)
    ∧ Forall (fun e => event_type e = "login_failed" ∧ e ∈ audit_log logged_world) events
    ∧ App.get_audit_events None (Some "") demo_ambient logged_world
      = App.get_audit_events None None demo_ambient logged_world.
Proof.
  apply (get_audit_events_by_type demo_ambient logged_world None "login_failed").
  discriminate.
Defined.

Example audit_pages :
  (fun r => match r with
            | (Returned {| App.body := App.AuditBody total filtered events |}, _) =>
                (total, filtered, map timestamp events)
            | _ => (0%nat, 0%nat, [])
            end)
    <$> [App.get_audit_events (Some 2) None demo_ambient logged_world;
         App.get_audit_events (Some 0) None demo_ambient logged_world;
         App.get_audit_events (Some (-1)) None demo_ambient logged_world;
         App.get_audit_events None (Some "login_failed") demo_ambient logged_world]
  = [(3%nat, 3%nat, [1001; 1002]);
     (3%nat, 3%nat, [1000; 1001; 1002]);
     (3%nat, 3%nat, [1001; 1002]);
     (3%nat, 2%nat, [1000; 1002])].
Proof. vm_compute. reflexivity. Qed.

(** ** Naming the session in a request *)

Lemma remove_from_untouched (old s : string) :
  py_in old s = false → remove_from old 0 s = s.
Proof.
  induction s as [|c rest IH]; intros H; [reflexivity|].
  cbn [py_in] in H. apply orb_false_iff in H as [Hhere Hrest].
  cbn [remove_from]. rewrite Hhere, (IH Hrest). reflexivity.
Qed.

(** X18. A bearer token that does not itself contain "Bearer " comes out of
    the [Authorization] header unchanged; the header is consulted only
    when the body has no [session_id] or an empty one, and a non-empty
    [session_id] in the body wins over any header. *)
Theorem requested_session_id_resolution (token : string) :
  py_in "Bearer " token = false →
  App.requested_session_id
    {| App.body_session_id := None; App.authorization := Some ("Bearer " +:+ token) |}
  = token
  ∧ App.requested_session_id
      {| App.body_session_id := Some ""; App.authorization := Some ("Bearer " +:+ token) |}
    = token
  ∧ ∀ sid header,
      sid ≠ "" →
      App.requested_session_id
        {| App.body_session_id := Some sid; App.authorization := header |} = sid.
Proof.
  intros Hclean.
  assert (E : remove_all "Bearer " ("Bearer " +:+ token) = token).
  { transitivity (remove_from "Bearer " 0 token); [destruct token; reflexivity|].
    apply remove_from_untouched, Hclean. }
  unfold App.requested_session_id. simpl default. rewrite E.
  split; [reflexivity|]. split; [reflexivity|].
  intros sid header Hsid. simpl.
  destruct (String.eqb_spec sid "") as [->|_]; [contradiction | reflexivity].
Qed.

Lemma requested_session_id_resolution_witness :
  App.requested_session_id
    {| App.body_session_id := None; App.authorization := Some ("Bearer " +:+ "token-0") |}
  = "token-0".
Proof.
  apply (requested_session_id_resolution "token-0"). vm_compute. reflexivity.
Defined.

(** ** Threat detection on text *)

Lemma lower_length (s : string) : String.length (lower s) = String.length s.
Proof. induction s as [|c rest IH]; simpl; [|rewrite IH]; reflexivity. Qed.

Lemma lower_append (a b : string) : lower (a +:+ b) = lower a +:+ lower b.
Proof. induction a as [|c rest IH]; simpl; [|rewrite IH]; reflexivity. Qed.

Lemma prefix_append (a b : string) : String.prefix a (a +:+ b) = true.
Proof.
  induction a as [|c rest IH]; simpl; [destruct b; reflexivity|].
  destruct (Ascii.ascii_dec c c) as [_|Hne]; [exact IH | contradiction].
Qed.

Lemma py_in_here (needle hay : string) :
  String.prefix needle hay = true → py_in needle hay = true.
Proof. intros H. destruct hay; cbn [py_in]; rewrite H; reflexivity. Qed.

Lemma py_in_append (needle before after : string) :
  py_in needle (before +:+ needle +:+ after) = true.
Proof.
  induction before as [|c rest IH].
  - change ("" +:+ needle +:+ after) with (needle +:+ after).
    apply py_in_here, prefix_append.
  - change (String c rest +:+ needle +:+ after)
      with (String c (rest +:+ needle +:+ after)).
    cbn [py_in]. rewrite IH. apply orb_true_r.
Qed.

(** X19. The verdict on a text depends on the text only up to letter case: two
    texts with the same lower-case form get the same verdict. *)
Theorem detect_threats_ignores_case (s s' : string) :
  lower s = lower s' →
  detect_threats (PyStr s) = detect_threats (PyStr s').
Proof.
  intros Hlow.
  assert (Hlen : len s = len s').
  { unfold len. rewrite <- (lower_length s), <- (lower_length s'), Hlow. reflexivity. }
  rewrite !detect_threats_unfold.
  unfold script_indicator, sql_keywords, oversized. simpl str. rewrite Hlow, Hlen.
  reflexivity.
Qed.

Lemma detect_threats_ignores_case_witness :
  detect_threats (PyStr "Drop the SCRIPT") = detect_threats (PyStr "drop the script").
Proof.
  apply (detect_threats_ignores_case "Drop the SCRIPT" "drop the script").
  vm_compute. reflexivity.
Defined.

(** X20. The script detector looks for the letters, not for markup: a text
    with "script" anywhere inside it, in any mix of cases and whatever
    stands around it, is reported as [potential_xss] and scores at least
    30. *)
Theorem any_script_substring_is_flagged (before word after : string) :
  lower word = "script" →
  "potential_xss" ∈ threats_detected (detect_threats (PyStr (before +:+ word +:+ after)))
  ∧ 30 <= risk_score (detect_threats (PyStr (before +:+ word +:+ after))).
Proof.
  intros Hword.
  assert (Hfire : script_indicator (PyStr (before +:+ word +:+ after)) = true).
  { unfold script_indicator. simpl str. rewrite !lower_append, Hword. apply py_in_append. }
  rewrite detect_threats_unfold. cbn zeta. simpl threats_detected. simpl risk_score.
  rewrite Hfire. split.
  - simpl. apply list_elem_of_here.
  - unfold weight. destruct (sql_keywords _), (oversized _); simpl; lia.
Qed.

Lemma any_script_substring_is_flagged_witness :
  "potential_xss" ∈ threats_detected (detect_threats (PyStr ("a de" +:+ "Script" +:+ "ion")))
  ∧ 30 <= risk_score (detect_threats (PyStr ("a de" +:+ "Script" +:+ "ion"))).
Proof.
  apply (any_script_substring_is_flagged "a de" "Script" "ion"). vm_compute. reflexivity.
Defined.

(** X21. More signals never make a verdict milder: if every detector that
    fires on one payload also fires on another, the other's risk score
    and the severity of its action are at least as high. *)
Theorem detect_threats_monotone (p q : PyVal) :
  (Is_true (script_indicator p) → Is_true (script_indicator q)) →
  (Is_true (sql_keywords p) → Is_true (sql_keywords q)) →
  (Is_true (oversized p) → Is_true (oversized q)) →
  risk_score (detect_threats p) <= risk_score (detect_threats q)
  ∧ severity (action (detect_threats p)) <= severity (action (detect_threats q)).
Proof.
  rewrite !detect_threats_unfold. cbn zeta. simpl risk_score. simpl action.
  unfold weight.
  destruct (script_indicator p), (sql_keywords p), (oversized p),
    (script_indicator q), (sql_keywords q), (oversized q); simpl;
    intros H1 H2 H3; try (exfalso; first [apply H1 | apply H2 | apply H3]; exact I);
    (split; [lia | unfold severity; simpl; lia]).
Qed.

Lemma detect_threats_monotone_witness :
  risk_score (detect_threats (PyStr "union select"))
  <= risk_score (detect_threats (PyStr "script union select"))
  ∧ severity (action (detect_threats (PyStr "union select")))
    <= severity (action (detect_threats (PyStr "script union select"))).
Proof.
  apply (detect_threats_monotone (PyStr "union select") (PyStr "script union select"));
    vm_compute; intros H; first [exact H | exact I].
Defined.

(** ** Compliance requirements *)

(** X22. The requirements [compliance_check] lists are decided by exact
    matches only: the three personal-data requirements appear exactly for
    the data type "personal_data", the portability requirement exactly for
    the operation "data_export", nothing else is ever listed, and the
    three compliance flags are true for every input. *)
Theorem compliance_check_requirements (data_type operation r : string) :
  (r ∈ DataProtection.requirements (DataProtection.compliance_check data_type operation)
   ↔ data_type = "personal_data"
     ∧ r ∈ ["user_consent_required"; "data_retention_policy"; "right_to_deletion"]
     ∨ operation = "data_export" ∧ r = "data_portability")
  ∧ DataProtection.gdpr_compliant (DataProtection.compliance_check data_type operation) = true
  ∧ DataProtection.ccpa_compliant (DataProtection.compliance_check data_type operation) = true
  ∧ DataProtection.soc2_compliant (DataProtection.compliance_check data_type operation) = true.
Proof.
  split; [|repeat split].
  unfold DataProtection.compliance_check. simpl.
  destruct (String.eqb_spec data_type "personal_data") as [Hd|Hd],
    (String.eqb_spec operation "data_export") as [Ho|Ho]; simpl.
  all: rewrite !list_elem_of_In; simpl; intuition congruence.
Qed.

(** X23. The compliance handler does not reject what it does not know: a
    data type other than "personal_data" with an operation other than
    "data_export" is answered 200, fully compliant, with no requirements
    at all. *)
Theorem compliance_route_accepts_unknown_input (data_type operation : string) :
  data_type ≠ "personal_data" →
  operation ≠ "data_export" →
  DataRoutes.compliance_check
    (Some {| DataRoutes.req_data_type := Some data_type;
             DataRoutes.req_operation := Some operation |})
  = DataRoutes.Reply
      (DataRoutes.ComplianceResult
         {| DataProtection.gdpr_compliant := true; DataProtection.ccpa_compliant := true;
            DataProtection.soc2_compliant := true; DataProtection.requirements := [] |})
      200.
Proof.
  intros Hd Ho. unfold DataRoutes.compliance_check, DataProtection.compliance_check. simpl.
  destruct (String.eqb_spec data_type "personal_data"); [contradiction|].
  destruct (String.eqb_spec operation "data_export"); [contradiction|]. reflexivity.
Qed.

Lemma compliance_route_accepts_unknown_input_witness :
  DataRoutes.compliance_check
    (Some {| DataRoutes.req_data_type := Some "Personal_Data";
             DataRoutes.req_operation := Some "" |})
  = DataRoutes.Reply
      (DataRoutes.ComplianceResult
         {| DataProtection.gdpr_compliant := true; DataProtection.ccpa_compliant := true;
            DataProtection.soc2_compliant := true; DataProtection.requirements := [] |})
      200.
Proof.
  apply (compliance_route_accepts_unknown_input "Personal_Data" ""); discriminate.
Defined.

(** ** Encryption *)

Lemma get_in_range (s : string) :
  ∀ n, (n < String.length s)%nat → ∃ c, String.get n s = Some c.
Proof.
  induction s as [|a rest IH]; intros n Hn; simpl in Hn; [lia|].
  destruct n as [|n]; simpl; [eauto|]. apply IH. lia.
Qed.

Lemma key_char_exists (key : string) (i : nat) :
  key ≠ "" → ∃ k, String.get (i mod String.length key) key = Some k.
Proof.
  intros Hkey. apply get_in_range. apply Nat.mod_upper_bound.
  destruct key; [contradiction | simpl; lia].
Qed.

Lemma xor_loop_step key i c rest :
  key ≠ "" →
  DataProtection.xor_loop key i (String c rest)
  = (k ← String.get (i mod String.length key) key;
     encrypted ← DataProtection.xor_loop key (S i) rest;
     Some (String (DataProtection.xor_char c k) encrypted)).
Proof. intros Hkey. destruct key; [contradiction | reflexivity]. Qed.

Lemma xor_loop_total key :
  key ≠ "" →
  ∀ data i, ∃ e,
    DataProtection.xor_loop key i data = Some e
    ∧ String.length e = String.length data.
Proof.
  intros Hkey. induction data as [|c rest IH]; intros i.
  - exists "". split; reflexivity.
  - rewrite (xor_loop_step _ _ _ _ Hkey).
    destruct (key_char_exists key i Hkey) as [k ->].
    destruct (IH (S i)) as (e & -> & Hlen). simpl.
    eexists. split; [reflexivity|]. simpl. rewrite Hlen. reflexivity.
Qed.

Lemma lxor_byte (a b : N) : (a < 256 → b < 256 → N.lxor a b < 256)%N.
Proof.
  intros Ha Hb. destruct (N.eq_dec (N.lxor a b) 0%N) as [->|Hnz]; [lia|].
  change 256%N with (2 ^ 8)%N in *. apply N.log2_lt_pow2; [lia|].
  pose proof (N.log2_lxor a b) as Hlog.
  assert (Hla : (N.log2 a < 8)%N).
  { destruct (N.eq_dec a 0%N) as [->|]; [simpl; lia|]. apply N.log2_lt_pow2; [lia | exact Ha]. }
  assert (Hlb : (N.log2 b < 8)%N).
  { destruct (N.eq_dec b 0%N) as [->|]; [simpl; lia|]. apply N.log2_lt_pow2; [lia | exact Hb]. }
  lia.
Qed.

Lemma xor_char_involutive (c k : ascii) :
  DataProtection.xor_char (DataProtection.xor_char c k) k = c.
Proof.
  unfold DataProtection.xor_char.
  rewrite N_ascii_embedding
    by (apply lxor_byte; apply N_ascii_bounded).
  rewrite N.lxor_assoc, N.lxor_nilpotent, N.lxor_0_r. apply ascii_N_embedding.
Qed.

Lemma xor_loop_injective key :
  ∀ d1 d2 i e,
    DataProtection.xor_loop key i d1 = Some e →
    DataProtection.xor_loop key i d2 = Some e →
    d1 = d2.
Proof.
  destruct (decide (key = "")) as [->|Hkey].
  { intros [|c1 r1] [|c2 r2] i e H1 H2; simpl in *; congruence. }
  induction d1 as [|c1 r1 IH]; intros [|c2 r2] i e.
  - reflexivity.
  - rewrite (xor_loop_step _ _ _ _ Hkey). simpl.
    destruct (String.get _ key); simpl; [|discriminate].
    destruct (DataProtection.xor_loop key (S i) r2); simpl; congruence.
  - rewrite (xor_loop_step _ _ _ _ Hkey). simpl.
    destruct (String.get _ key); simpl; [|discriminate].
    destruct (DataProtection.xor_loop key (S i) r1); simpl; congruence.
  - rewrite !(xor_loop_step _ _ _ _ Hkey).
    destruct (String.get _ key) as [k|]; simpl; [|discriminate].
    destruct (DataProtection.xor_loop key (S i) r1) as [e1|] eqn:E1; simpl; [|discriminate].
    destruct (DataProtection.xor_loop key (S i) r2) as [e2|] eqn:E2; simpl; [|discriminate].
    intros [= <-] [= Hc He]. subst e2.
    rewrite (IH r2 (S i) e1 E1 E2).
    rewrite <- (xor_char_involutive c1 k), <- (xor_char_involutive c2 k), Hc.
    reflexivity.
Qed.

Lemma N_of_ascii_injective (a b : ascii) : N_of_ascii a = N_of_ascii b → a = b.
Proof.
  intros H. rewrite <- (ascii_N_embedding a), <- (ascii_N_embedding b), H. reflexivity.
Qed.

Lemma utf8_char_cases (c : ascii) :
  (∃ n, DataProtection.utf8_char c = [n] ∧ n = N_of_ascii c ∧ n < 128)%N
  ∨ (∃ hi lo, DataProtection.utf8_char c = [hi; lo]
              ∧ hi = 192 + N_of_ascii c / 64 ∧ lo = 128 + N_of_ascii c mod 64
              ∧ 128 <= N_of_ascii c < 256)%N.
Proof.
  unfold DataProtection.utf8_char. pose proof (N_ascii_bounded c) as Hc.
  destruct (N.ltb_spec (N_of_ascii c) 128) as [H|H].
  - left. eexists. repeat split. exact H.
  - right. eexists _, _. repeat split; assumption.
Qed.

Lemma utf8_bounded (s : string) : Forall (fun b => b < 256)%N (DataProtection.utf8 s).
Proof.
  induction s as [|c rest IH]; simpl; [constructor|].
  apply Forall_app. split; [|exact IH].
  destruct (utf8_char_cases c) as [(n & -> & -> & Hn) | (hi & lo & -> & -> & -> & Hc)].
  - repeat constructor. lia.
  - repeat constructor.
    + assert (N_of_ascii c / 64 < 4)%N by (apply N.Div0.div_lt_upper_bound; lia). lia.
    + assert (N_of_ascii c mod 64 < 64)%N by (apply N.mod_upper_bound; lia). lia.
Qed.

Lemma utf8_injective (s1 : string) :
  ∀ s2, DataProtection.utf8 s1 = DataProtection.utf8 s2 → s1 = s2.
Proof.
  induction s1 as [|c1 r1 IH]; intros [|c2 r2]; simpl.
  - reflexivity.
  - destruct (utf8_char_cases c2) as [(n & -> & _) | (hi & lo & -> & _)]; discriminate.
  - destruct (utf8_char_cases c1) as [(n & -> & _) | (hi & lo & -> & _)]; discriminate.
  - destruct (utf8_char_cases c1) as [(n1 & -> & -> & H1) | (h1 & l1 & -> & -> & -> & H1)],
      (utf8_char_cases c2) as [(n2 & -> & -> & H2) | (h2 & l2 & -> & -> & -> & H2)];
      simpl.
    + intros [= E Hrest]. f_equal; [apply N_of_ascii_injective, E | apply IH, Hrest].
    + intros [= E _]. exfalso. generalize dependent (N_of_ascii c2 / 64)%N. intros. lia.
    + intros [= E _]. exfalso. generalize dependent (N_of_ascii c1 / 64)%N. intros. lia.
    + intros [= E E' Hrest]. f_equal; [|apply IH, Hrest].
      apply N_of_ascii_injective.
      apply N.add_cancel_l in E, E'.
      rewrite (N.div_mod (N_of_ascii c1) 64), (N.div_mod (N_of_ascii c2) 64) by lia.
      rewrite E, E'. reflexivity.
Qed.

Lemma hex_digit_injective (a b : N) :
  (a < 16 → b < 16 → hex_digit a = hex_digit b → a = b)%N.
Proof.
  intros Ha Hb H. unfold hex_digit in H. apply (f_equal N_of_ascii) in H.
  destruct (N.ltb_spec a 10), (N.ltb_spec b 10);
    rewrite !N_ascii_embedding in H by lia; lia.
Qed.

Lemma hex_injective (l1 : list N) :
  ∀ l2,
    Forall (fun b => b < 256)%N l1 → Forall (fun b => b < 256)%N l2 →
    DataProtection.hex l1 = DataProtection.hex l2 → l1 = l2.
Proof.
  induction l1 as [|b1 r1 IH]; intros [|b2 r2] H1 H2; simpl; try discriminate.
  - reflexivity.
  - inversion H1 as [|? ? Hb1 Hr1]; inversion H2 as [|? ? Hb2 Hr2]; subst.
    intros [= Hhi Hlo Hrest].
    apply hex_digit_injective in Hhi;
      [|apply N.Div0.div_lt_upper_bound; lia | apply N.Div0.div_lt_upper_bound; lia].
    apply hex_digit_injective in Hlo;
      [|apply N.mod_upper_bound; lia | apply N.mod_upper_bound; lia].
    f_equal; [|apply IH; assumption].
    rewrite (N.div_mod b1 16), (N.div_mod b2 16) by lia. rewrite Hhi, Hlo. reflexivity.
Qed.

Lemma hex_length (l : list N) :
  String.length (DataProtection.hex l) = (2 * length l)%nat.
Proof. induction l as [|b rest IH]; simpl; [|rewrite IH]; lia. Qed.

Lemma utf8_length (s : string) :
  (String.length s <= length (DataProtection.utf8 s) <= 2 * String.length s)%nat.
Proof.
  induction s as [|c rest IH]; simpl; [lia|]. rewrite length_app.
  destruct (utf8_char_cases c) as [(n & -> & _) | (hi & lo & -> & _)]; simpl; lia.
Qed.

Lemma encrypt_data_succeeds amb w data (k : option string) :
  (∀ k0, k = Some k0 → k0 = "" → entropy amb (draws w) 16 ≠ "") →
  (k = None → entropy amb (draws w) 16 ≠ "") →
  ∃ r w', DataProtection.encrypt_data data k amb w = (Some r, w').
Proof.
  intros Hsome Hnone. unfold DataProtection.encrypt_data.
  assert (Hgen : ∀ w0 : World, entropy amb (draws w) 16 ≠ "" →
            ∃ r w',
              (encrypted ← DataProtection.xor_loop (entropy amb (draws w) 16) 0 data;
               Some {| DataProtection.encrypted_data :=
                         DataProtection.hex (DataProtection.utf8 encrypted);
                       DataProtection.key := entropy amb (draws w) 16;
                       DataProtection.algorithm := "XOR-Demo" |}, w0)
              = (Some r, w')).
  { intros w0 Htok. destruct (xor_loop_total _ Htok data 0%nat) as (e & -> & _).
    simpl. eauto. }
  destruct k as [k0|]; [|apply Hgen, Hnone; reflexivity].
  destruct (String.eqb_spec k0 "") as [E|Hk]; [apply Hgen, (Hsome k0 eq_refl E)|].
  destruct (xor_loop_total _ Hk data 0%nat) as (e & -> & _). simpl. eauto.
Qed.

(** X24. With a key supplied by the caller, [encrypt_data] always returns a
    result, under that very key, without drawing from the random source
    or changing the service; the hexadecimal text it returns has between
    two and four digits per character of the data. *)
Theorem encrypt_data_with_supplied_key
    (amb : Ambient) (w : World) (data k : string) :
  k ≠ "" →
  ∃ r,
    DataProtection.encrypt_data data (Some k) amb w = (Some r, w)
    ∧ DataProtection.key r = k
    ∧ DataProtection.algorithm r = "XOR-Demo"
    ∧ (2 * String.length data <= String.length (DataProtection.encrypted_data r)
       <= 4 * String.length data)%nat.
Proof.
  intros Hk. unfold DataProtection.encrypt_data.
  destruct (String.eqb_spec k "") as [E|_]; [contradiction|].
  destruct (xor_loop_total k Hk data 0%nat) as (e & He & Hlen).
  rewrite He. simpl. eexists. split; [reflexivity|]. simpl.
  split; [reflexivity|]. split; [reflexivity|].
  rewrite hex_length. pose proof (utf8_length e). lia.
Qed.

Lemma encrypt_data_with_supplied_key_witness :
  ∃ r,
    DataProtection.encrypt_data "hello" (Some "k") demo_ambient init = (Some r, init)
    ∧ DataProtection.key r = "k"
    ∧ DataProtection.algorithm r = "XOR-Demo"
    ∧ (2 * String.length "hello" <= String.length (DataProtection.encrypted_data r)
       <= 4 * String.length "hello")%nat.
Proof.
  apply (encrypt_data_with_supplied_key demo_ambient init "hello" "k"). discriminate.
Defined.

(** X25. Under one key, [encrypt_data] loses nothing: two texts that encrypt
    to the same [encrypted_data] are the same text. *)
Theorem encrypt_data_injective
    (amb : Ambient) (w w1 w2 : World) (data1 data2 : string) (k : option string)
    (r1 r2 : DataProtection.Encrypted) :
  DataProtection.encrypt_data data1 k amb w = (Some r1, w1) →
  DataProtection.encrypt_data data2 k amb w = (Some r2, w2) →
  DataProtection.encrypted_data r1 = DataProtection.encrypted_data r2 →
  data1 = data2.
Proof.
  unfold DataProtection.encrypt_data.
  destruct (match k with
            | Some k0 => if String.eqb k0 "" then (entropy amb (draws w) 16, draw w)
                         else (k0, w)
            | None => (entropy amb (draws w) 16, draw w)
            end) as [key w'].
  destruct (DataProtection.xor_loop key 0 data1) as [e1|] eqn:E1; simpl; [|discriminate].
  destruct (DataProtection.xor_loop key 0 data2) as [e2|] eqn:E2; simpl; [|discriminate].
  intros [= <- _] [= <- _]. simpl. intros Hhex.
  apply hex_injective in Hhex; [|apply utf8_bounded|apply utf8_bounded].
  apply utf8_injective in Hhex. subst e2.
  exact (xor_loop_injective key data1 data2 0%nat e1 E1 E2).
Qed.

Lemma encrypt_data_injective_witness :
  ∃ r w1,
    DataProtection.encrypt_data "hello" (Some "k") demo_ambient init = (Some r, w1)
    ∧ DataProtection.encrypted_data r = "030e070704"
    ∧ ∀ data2 r2 w2,
        DataProtection.encrypt_data data2 (Some "k") demo_ambient init = (Some r2, w2) →
        DataProtection.encrypted_data r2 = "030e070704" →
        data2 = "hello".
Proof.
  eexists _, _. split; [vm_compute; reflexivity|]. split; [reflexivity|].
  intros data2 r2 w2 H2 Hsame. symmetry.
  apply (encrypt_data_injective demo_ambient init _ w2 "hello" data2 (Some "k") _ r2
           eq_refl H2).
  symmetry. exact Hsame.
Defined.

(** X26. Without a key, and likewise with an empty one, [encrypt_data] draws
    one 16-byte token from the random source and encrypts under it. It
    fails only if that token is empty while there is data to encrypt. *)
Theorem encrypt_data_generates_key
    (amb : Ambient) (w : World) (data : string) (k : option string) :
  k = None ∨ k = Some "" →
  snd (DataProtection.encrypt_data data k amb w) = draw w
  ∧ (fst (DataProtection.encrypt_data data k amb w) = None
     ↔ entropy amb (draws w) 16 = "" ∧ data ≠ "")
  ∧ ∀ r, fst (DataProtection.encrypt_data data k amb w) = Some r →
         DataProtection.key r = entropy amb (draws w) 16.
Proof.
  intros Hk.
  assert (E : DataProtection.encrypt_data data k amb w
              = (encrypted ← DataProtection.xor_loop (entropy amb (draws w) 16) 0 data;
                 Some {| DataProtection.encrypted_data :=
                           DataProtection.hex (DataProtection.utf8 encrypted);
                         DataProtection.key := entropy amb (draws w) 16;
                         DataProtection.algorithm := "XOR-Demo" |},
                 draw w)).
  { destruct Hk as [-> | ->]; reflexivity. }
  rewrite E. simpl. split; [reflexivity|].
  destruct (decide (entropy amb (draws w) 16 = "")) as [Hempty|Hfull].
  - rewrite Hempty. destruct data as [|c rest]; simpl.
    + split; [|intros r [= <-]; reflexivity].
      split; [discriminate | intros [_ H]; contradiction].
    + split; [|discriminate]. split; [intros _; split; [reflexivity | discriminate] | reflexivity].
  - destruct (xor_loop_total _ Hfull data 0%nat) as (e & -> & _). simpl.
    split; [|intros r [= <-]; reflexivity].
    split; [discriminate | intros [H _]; contradiction].
Qed.

Lemma encrypt_data_generates_key_witness :
  snd (DataProtection.encrypt_data "hello" None demo_ambient init) = draw init
  ∧ (fst (DataProtection.encrypt_data "hello" None demo_ambient init) = None
     ↔ entropy demo_ambient (draws init) 16 = "" ∧ "hello" ≠ "")
  ∧ ∀ r, fst (DataProtection.encrypt_data "hello" None demo_ambient init) = Some r →
         DataProtection.key r = entropy demo_ambient (draws init) 16.
Proof.
  apply (encrypt_data_generates_key demo_ambient init "hello" None). left. reflexivity.
Defined.

(** X27. As long as the random source does not hand out an empty token,
    the encryption handler answers every request whose JSON body is
    [null] or an object with string-valued [data] and [key]: with 400
    exactly when the body is [null] or has no [data] key, with 200
    otherwise. *)
Theorem encrypt_route_answers
    (amb : Ambient) (w : World) (json : option DataRoutes.EncryptRequest) :
  entropy amb (draws w) 16 ≠ "" →
  ∃ doc status w',
    DataRoutes.encrypt_data json amb w = (DataRoutes.Reply doc status, w')
    ∧ (status = 400 ↔ ∀ j, json = Some j → DataRoutes.req_data j = None)
    ∧ (status = 200 ∨ status = 400).
Proof.
  intros Htoken. unfold DataRoutes.encrypt_data.
  destruct json as [[[data|] key]|]; simpl.
  - destruct (encrypt_data_succeeds amb w data key) as (r & w' & ->);
      [intros; exact Htoken | intros; exact Htoken |].
    eexists _, _, _. split; [reflexivity|]. split; [|left; reflexivity].
    split; [discriminate|]. intros H. specialize (H _ eq_refl). discriminate H.
  - eexists _, _, _. split; [reflexivity|]. split; [|right; reflexivity].
    split; [|reflexivity]. intros _ j [= <-]. reflexivity.
  - eexists _, _, _. split; [reflexivity|]. split; [|right; reflexivity].
    split; [|reflexivity]. intros _ j [=].
Qed.

Lemma encrypt_route_answers_witness :
  ∃ doc status w',
    DataRoutes.encrypt_data
      (Some {| DataRoutes.req_data := Some "hello"; DataRoutes.req_key := None |})
      demo_ambient init = (DataRoutes.Reply doc status, w')
    ∧ (status = 400
       ↔ ∀ j, Some {| DataRoutes.req_data := Some "hello"; DataRoutes.req_key := None |}
              = Some j → DataRoutes.req_data j = None)
    ∧ (status = 200 ∨ status = 400).
Proof.
  apply (encrypt_route_answers demo_ambient init
           (Some {| DataRoutes.req_data := Some "hello"; DataRoutes.req_key := None |})).
  vm_compute. discriminate.
Defined.

(** ** Health *)

(** X28. Expiry is lazy, and [health] shows it: a session whose deadline has
    passed is still counted among the active sessions, and the count only
    drops once a validation of that session has removed it. *)
Theorem health_counts_untouched_expired_sessions
    (amb amb' amb'' : Ambient) (w : World) (sid : string) (s : Session) :
  sessions w !! sid = Some s →
  expires_at s < clock amb (ticks w) →
  expires_at s < clock amb' (S (ticks w)) →
  ∃ w1 w2 t,
    DataRoutes.health amb w
    = (DataRoutes.Reply
         (DataRoutes.HealthResult (clock amb (ticks w)) (size (sessions w))
            (length (audit_log w)) (security_policies w)) 200, w1)
    ∧ validate_session sid amb' w1 = (Raised (ValueError "Session expired"), w2)
    ∧ fst (DataRoutes.health amb'' w2)
      = DataRoutes.Reply
          (DataRoutes.HealthResult t (Nat.pred (size (sessions w)))
             (length (audit_log w)) (security_policies w)) 200.
Proof.
  intros Hs _ Hlate. unfold DataRoutes.health.
  eexists _, _, _. split; [reflexivity|].
  assert (Ht : (clock amb' (ticks (tick w)) >? expires_at s) = true)
    by (rewrite Z.gtb_ltb; apply Z.ltb_lt; exact Hlate).
  split; [apply (validate_session_expired amb' (tick w) sid s Hs Ht)|].
  simpl. rewrite map_size_delete_Some by (rewrite Hs; eauto). reflexivity.
Qed.

Lemma health_counts_untouched_expired_sessions_witness :
  ∃ w1 w2 t,
    DataRoutes.health demo_ambient expired_world
    = (DataRoutes.Reply
         (DataRoutes.HealthResult 1000 1 0 (security_policies init)) 200, w1)
    ∧ validate_session "s1" demo_ambient w1 = (Raised (ValueError "Session expired"), w2)
    ∧ fst (DataRoutes.health demo_ambient w2)
      = DataRoutes.Reply (DataRoutes.HealthResult t 0 0 (security_policies init)) 200.
Proof.
  apply (health_counts_untouched_expired_sessions demo_ambient demo_ambient demo_ambient
           expired_world "s1" (demo_session 500));
    [reflexivity | vm_compute; reflexivity | vm_compute; reflexivity].
Defined.

(** ** The invariants on a concrete run *)

Lemma busy_world_reachable : reachable busy_world.
Proof.
  unfold busy_world. cbv zeta. repeat apply reachable_serve. apply reachable_init.
Defined.

Lemma reachable_policies_are_initial_witness :
  security_policies busy_world = security_policies init
  ∧ DataRoutes.get_security_policies busy_world
    = DataRoutes.Reply (DataRoutes.PoliciesResult (security_policies init)) 200.
Proof. apply (reachable_policies_are_initial busy_world busy_world_reachable). Defined.

Lemma reachable_audit_event_types_witness :
  map event_type (audit_log busy_world)
  = ["login_failed"; "threat_scan"; "session_created"; "session_destroyed"]
  ∧ Forall (fun e => event_type e ∈ known_event_types) (audit_log busy_world).
Proof.
  split; [vm_compute; reflexivity|].
  apply (reachable_audit_event_types busy_world busy_world_reachable).
Defined.

(** ** Scanning an empty body *)

(** X29. A scan request whose JSON body is one that Python counts as false
    ([null], [false], [0], an empty string, list or dictionary) is
    scanned as the empty dictionary: no signal, score 0, action allow; the
    scan is logged all the same. *)
Theorem threat_scan_of_falsy_body (amb : Ambient) (w : World) (v : PyVal) :
  App.truthy v = false →
  App.threat_scan (Some v) amb w
  = (Returned (App.jsonify
       (App.ThreatBody {| threats_detected := []; risk_score := 0; action := "allow" |})),
     set_audit_log
       (fun log => log ++ [event_at amb w "threat_scan"
                             (verdict_dict {| threats_detected := []; risk_score := 0;
                                              action := "allow" |})])
       (tick w)).
Proof.
  intros Hfalsy.
  assert (E : App.or_empty_dict (Some v) = PyDict []).
  { simpl. rewrite Hfalsy. reflexivity. }
  unfold App.threat_scan. rewrite E. reflexivity.
Qed.

Lemma threat_scan_of_falsy_body_witness :
  App.truthy (PyList []) = false
  ∧ App.threat_scan (Some (PyList [])) demo_ambient init
    = (Returned (App.jsonify
         (App.ThreatBody {| threats_detected := []; risk_score := 0; action := "allow" |})),
       set_audit_log
         (fun log => log ++ [event_at demo_ambient init "threat_scan"
                               (verdict_dict {| threats_detected := []; risk_score := 0;
                                                action := "allow" |})])
         (tick init)).
Proof.
  split; [reflexivity|].
  apply (threat_scan_of_falsy_body demo_ambient init (PyList [])). reflexivity.
Defined.
